(** * aw-watcher-afk: the AFK watcher, its settings and its heartbeat loop

    A shallow embedding of [aw_watcher_afk/afk.py] and
    [aw_watcher_afk/__main__.py].

    Conventions of the embedding.
    - Seconds ([timeout], [poll_time], [seconds_since_input], an event's
      [duration], [pulsetime]) are exact rationals [Q]: every finite Python
      [int] and [float] is one.  NaN and the infinities are outside the
      model ([timedelta(seconds=nan)] raises before any comparison of a tick
      is reached), and the one sum the program forms,
      [timeout + poll_time], is kept as that sum.
    - An instant ([datetime], resolution one microsecond) is an integer [Z]
      of microseconds since the epoch; [datetime]'s range limits are outside
      the model.
    - The interpreter's world is explicit: a read-only environment [Env]
      (platform, [os.environ], what the collaborators return) and a mutable
      [World] (the calls made so far, the pending keyboard interrupt, the
      number of the current tick).  Code runs in a state-and-exception
      monad over it; methods of [AFKWatcher] run over the object's fields
      and the world.
    - Calls into libraries (the store client, [logging], [time.sleep],
      [datetime.now]) are modelled by their normal return; the exceptions of
      the model are the ones the source raises or handles itself.
    - [while True] is run with fuel; running out of fuel is an outcome of
      its own ([Fuel]), which no handler catches. *)

From Stdlib Require Import ZArith QArith Qround Lia Ascii String.
From stdpp Require Import base option list strings gmap.

Local Open Scope string_scope.
Local Open Scope list_scope.

(** ** Outcomes, exceptions and the monad *)

Inductive exn : Type :=
| KeyboardInterrupt
| SystemExit (code : Z)
| AssertionError
| KeyError (key : string)
| OtherException.

(** [except Exception] catches every exception but the two that derive from
    [BaseException] directly. *)
Definition is_Exception (e : exn) : bool :=
  match e with
  | KeyboardInterrupt | SystemExit _ => false
  | AssertionError | KeyError _ | OtherException => true
  end.

Inductive result (A : Type) : Type :=
| Ret (a : A)
| Raise (e : exn)
| Fuel.
Arguments Ret {A} a.
Arguments Raise {A} e.
Arguments Fuel {A}.

Definition M (St A : Type) : Type := St -> result A * St.

Definition ret {St A} (a : A) : M St A := fun s => (Ret a, s).

Definition bind {St A B} (m : M St A) (k : A -> M St B) : M St B :=
  fun s =>
    match m s with
    | (Ret a, s') => k a s'
    | (Raise e, s') => (Raise e, s')
    | (Fuel, s') => (Fuel, s')
    end.

Definition raise {St A} (e : exn) : M St A := fun s => (Raise e, s).

(** [try: body / except <class>: handler], the class given by [catches]. *)
Definition try_except {St A} (body : M St A) (catches : exn -> bool)
    (handler : M St A) : M St A :=
  fun s =>
    match body s with
    | (Raise e, s') => if catches e then handler s' else (Raise e, s')
    | other => other
    end.

(** [with cm: body]: [leave] runs however [body] ends, unless it is still
    running when the fuel is out. *)
Definition with_block {St A} (enter : M St unit) (body : M St A)
    (leave : M St unit) : M St A :=
  bind enter (fun _ s =>
    match body s with
    | (Fuel, s') => (Fuel, s')
    | (r, s') =>
        match leave s' with
        | (Ret _, s'') => (r, s'')
        | (Raise e, s'') => (Raise e, s'')
        | (Fuel, s'') => (Fuel, s'')
        end
    end).

Declare Scope py_scope.
Delimit Scope py_scope with py.
Notation "x <- c1 ;; c2" := (bind c1 (fun x => c2))
  (at level 100, c1 at next level, right associativity) : py_scope.
Notation "c1 ;; c2" := (bind c1 (fun _ => c2))
  (at level 100, right associativity) : py_scope.
Local Open Scope py_scope.

(** ** Comparisons and truth of numbers *)

(** [x < y] and [x >= y] on numbers. *)
Definition Qltb (x y : Q) : bool :=
  match (x ?= y)%Q with Lt => true | _ => false end.
Definition Qgeb (x y : Q) : bool :=
  match (x ?= y)%Q with Lt => false | _ => true end.

(** Truth value of a number: non-zero. *)
Definition truthy (x : Q) : bool := negb (Qnum x =? 0)%Z.

(** ** The data model *)

(** [platform.system()]; on any other platform the module raises while it
    is imported, before any of the code below runs. *)
Inductive platform : Type := Windows | Darwin | Linux.

(** [system in ["Darwin", "Linux"]] *)
Definition posix (system : platform) : bool :=
  match system with Darwin | Linux => true | Windows => false end.

(** [aw_core.models.Event(timestamp, duration, data)] *)
Record Event : Type := mkEvent {
  timestamp : Z;
  duration : Q;
  data : gmap string string
}.

Record Settings : Type := mkSettings {
  timeout : Q;
  poll_time : Q
}.

(** The namespace [parse_args()] returns. *)
Record Args : Type := mkArgs {
  arg_host : option string;
  arg_port : option string;
  arg_testing : bool;
  arg_verbose : bool;
  arg_timeout : option Q;
  arg_poll_time : option Q
}.

(** [ActivityWatchClient(name, host, port, testing)]; [client_hostname] is
    the host name the client reports. *)
Record Client : Type := mkClient {
  client_name : string;
  client_host : option string;
  client_port : option string;
  client_testing : bool;
  client_hostname : string
}.

Record AFKWatcher : Type := mkAFKWatcher {
  settings : Settings;
  client : Client;
  bucketname : string
}.

Inductive level : Type := DEBUG | INFO | ERROR.

(** The shell commands [get_logged_in_user] runs:
    [ListSeat0] is [loginctl list-sessions --no-legend] piped through the awk
    filter that prints the first session of seat0,
    [ShowSessionName s] is [loginctl show-session s -p Name --value],
    [Who] is [who]. *)
Inductive command : Type :=
| ListSeat0
| ShowSessionName (session : string)
| Who.

(** What the program does to the outside, in the order it does it. *)
Inductive effect : Type :=
| SetupLogging (name : string) (testing verbose log_stderr log_file : bool)
| Log (lvl : level) (msg : string)
| LogSeconds (seconds_since_input : Q)
| Run (cmd : command)
| Sleep (seconds : Q)
| WaitForStart
| CreateBucket (bucket_id event_type : string) (queued : bool)
| Connect
| Disconnect
| Heartbeat (bucket_id : string) (e : Event) (pulsetime : Q) (queued : bool)
| Sigint.

Definition is_store_call (e : effect) : bool :=
  match e with
  | WaitForStart | CreateBucket _ _ _ | Connect | Disconnect
  | Heartbeat _ _ _ _ => true
  | _ => false
  end.

(** What one tick reads from the machine. *)
Record Sample : Type := mkSample {
  ppid : Z;
  now : Z;
  idle : Q
}.

Record Env : Type := mkEnv {
  system : platform;
  environ : gmap string string;
  argv : Args;
  config : bool -> gmap string Q;
  shell : command -> option string;
  getuser : option string;
  hostname : string;
  samples : nat -> Sample
}.

Record World : Type := mkWorld {
  tick_no : nat;
  sigint : option nat;
  trace : list effect
}.

(** Code outside the class runs over the world, a method over the fields
    of [self] and the world. *)
Definition W (A : Type) : Type := M World A.
Definition Meth (A : Type) : Type := M (AFKWatcher * World) A.

Definition lift {A} (m : W A) : Meth A :=
  fun s => let (r, w') := m (snd s) in (r, (fst s, w')).

Definition get_self : Meth AFKWatcher := fun s => (Ret (fst s), s).

(** [obj.method(...)] called from outside the class. *)
Definition call {A} (obj : AFKWatcher) (m : Meth A) : W A :=
  fun w => let (r, s') := m (obj, w) in (r, snd s').

Definition of_result {St A} (r : result A) : M St A := fun s => (r, s).

(** ** The primitive operations *)

(** A point where a pending keyboard interrupt is delivered: [sigint]
    counts the operations that still complete before it. *)
Definition checkpoint : W unit :=
  fun w =>
    match sigint w with
    | None => (Ret tt, w)
    | Some (S n) => (Ret tt, mkWorld (tick_no w) (Some n) (trace w))
    | Some O =>
        (Raise KeyboardInterrupt,
         mkWorld (tick_no w) None (trace w ++ [Sigint]))
    end.

Definition emit (e : effect) : W unit :=
  fun w => (Ret tt, mkWorld (tick_no w) (sigint w) (trace w ++ [e])).

Definition perform (e : effect) : W unit := checkpoint ;; emit e.

Definition observe {A} (f : World -> A) : W A :=
  checkpoint ;; fun w => (Ret (f w), w).

Section Primitives.
Variable env : Env.

Definition os_getppid : W Z :=
  observe (fun w => ppid (samples env (tick_no w))).

(** [datetime.now(timezone.utc)] *)
Definition datetime_now : W Z :=
  observe (fun w => now (samples env (tick_no w))).

(** Modelled from the spec: [seconds_since_last_input] of the platform
    modules ([unix.py], [windows.py], [macos.py], not among the sources), the
    idle-time provider that returns the seconds since the last input. *)
Definition seconds_since_last_input : W Q :=
  observe (fun w => idle (samples env (tick_no w))).

(** [subprocess.check_output(cmd, shell=True).decode()]; [shell env cmd] is
    the decoded output, or [None] when the call or the decoding raises. *)
Definition check_output (cmd : command) : W string :=
  perform (Run cmd) ;;
  match shell env cmd with
  | Some out => ret out
  | None => raise OtherException
  end.

(** [getpass.getuser()]; [getuser env] is [None] when it raises. *)
Definition getpass_getuser : W string :=
  checkpoint ;;
  match getuser env with
  | Some user => ret user
  | None => raise OtherException
  end.

(** Modelled from the spec: [load_config] of [config.py], which is not among
    the sources; the configuration source hands over a key-value mapping. *)
Definition load_config (testing : bool) : W (gmap string Q) :=
  ret (config env testing).

(** Modelled from the spec: [parse_args] of [config.py], which is not among
    the sources; command-line parsing is a provided service that hands
    [main] the parsed arguments. *)
Definition parse_args : W Args := ret (argv env).

Definition ActivityWatchClient (name : string) (host port : option string)
    (testing : bool) : W Client :=
  ret (mkClient name host port testing (hostname env)).
End Primitives.

(** [time.sleep]: the next tick reads the next sample. *)
Definition sleep (seconds : Q) : W unit :=
  perform (Sleep seconds) ;;
  fun w => (Ret tt, mkWorld (S (tick_no w)) (sigint w) (trace w)).

Definition logger_info (msg : string) : W unit := perform (Log INFO msg).
Definition logger_error (msg : string) : W unit := perform (Log ERROR msg).

(** [logger.debug(f"Seconds since last input: {seconds_since_input}")] *)
Definition logger_debug_seconds (seconds_since_input : Q) : W unit :=
  perform (LogSeconds seconds_since_input).

Definition setup_logging (name : string)
    (testing verbose log_stderr log_file : bool) : W unit :=
  perform (SetupLogging name testing verbose log_stderr log_file).

Definition client_wait_for_start (c : Client) : W unit := perform WaitForStart.

Definition client_create_bucket (c : Client) (bucket_id event_type : string)
    (queued : bool) : W unit :=
  perform (CreateBucket bucket_id event_type queued).

Definition client_heartbeat (c : Client) (bucket_id : string) (e : Event)
    (pulsetime : Q) (queued : bool) : W unit :=
  perform (Heartbeat bucket_id e pulsetime queued).

Definition client_enter (c : Client) : W unit := perform Connect.
Definition client_exit (c : Client) : W unit := perform Disconnect.

Definition sys_exit {A} (code : Z) : W A := raise (SystemExit code).

(** ** Time *)

(** [timedelta(milliseconds=1)], in microseconds. *)
Definition td1ms : Z := 1000.

(** [timedelta(seconds=s)], in microseconds: the nearest whole number of
    microseconds, a tie going to the even one. *)
Definition timedelta_seconds (s : Q) : Z :=
  let x := (s * 1000000)%Q in
  let f := Qfloor x in
  match ((x - inject_Z f) ?= 1 # 2)%Q with
  | Lt => f
  | Gt => (f + 1)%Z
  | Eq => if Z.even f then f else (f + 1)%Z
  end.

(** ** Strings as [get_logged_in_user] uses them (ASCII text) *)

(** [str.isspace] of one character. *)
Definition isspace (a : ascii) : bool :=
  let n := nat_of_ascii a in
  ((9 <=? n) && (n <=? 13) || (28 <=? n) && (n <=? 32))%nat.

(** Where [str.splitlines] breaks a line. *)
Definition is_linebreak (a : ascii) : bool :=
  let n := nat_of_ascii a in
  ((10 <=? n) && (n <=? 13) || (28 <=? n) && (n <=? 30))%nat.

Definition of_rev (l : list ascii) : string :=
  string_of_list_ascii (rev l).

Fixpoint lstrip (s : string) : string :=
  match s with
  | String a s' => if isspace a then lstrip s' else s
  | EmptyString => s
  end.

Definition strip (s : string) : string :=
  of_rev (list_ascii_of_string
            (lstrip (of_rev (list_ascii_of_string (lstrip s))))).

(** [s.split()]: the maximal runs of characters that are not whitespace. *)
Fixpoint split_from (word : list ascii) (s : string) : list string :=
  match s with
  | EmptyString =>
      match word with [] => [] | _ => [of_rev word] end
  | String a s' =>
      if isspace a then
        match word with
        | [] => split_from [] s'
        | _ => of_rev word :: split_from [] s'
        end
      else split_from (a :: word) s'
  end.
Definition split (s : string) : list string := split_from [] s.

(** [s.splitlines()]; a line feed right after a carriage return belongs to
    the same break. *)
Fixpoint splitlines_from (after_cr : bool) (line : list ascii) (s : string)
    : list string :=
  match s with
  | EmptyString =>
      match line with [] => [] | _ => [of_rev line] end
  | String a s' =>
      if after_cr && (nat_of_ascii a =? 10)%nat then
        splitlines_from false line s'
      else if is_linebreak a then
        of_rev line :: splitlines_from (nat_of_ascii a =? 13)%nat [] s'
      else splitlines_from false (a :: line) s'
  end.
Definition splitlines (s : string) : list string :=
  splitlines_from false [] s.

Definition startswith (s p : string) : bool := String.prefix p s.

Definition nonempty (s : string) : bool :=
  match s with EmptyString => false | _ => true end.

(** ** afk.py *)

(** The [for] loop over the lines of [who]: the first line with at least two
    columns whose second column does not start with [pts/] gives the user. *)
Fixpoint first_local_user (lines : list string) : option string :=
  match lines with
  | [] => None
  | line :: rest =>
      match split line with
      | c0 :: c1 :: _ =>
          if negb (startswith c1 "pts/") then Some c0
          else first_local_user rest
      | _ => first_local_user rest
      end
  end.

(** [running_over_ssh]: [a or b] on the two lookups, then [bool(...)]. *)
Definition str_truthy (o : option string) : bool :=
  match o with Some s => nonempty s | None => false end.

Definition running_over_ssh (env : Env) : bool :=
  let a := environ env !! "SSH_CLIENT" in
  let b := environ env !! "SSH_TTY" in
  str_truthy (if str_truthy a then a else b).

(** [d[key]] *)
Definition getitem (d : gmap string Q) (key : string) : result Q :=
  match d !! key with
  | Some v => Ret v
  | None => Raise (KeyError key)
  end.

(** [x or d[key]]: the subscript is evaluated only when [x] is [None] or
    zero. *)
Definition or_getitem (x : option Q) (d : gmap string Q) (key : string)
    : result Q :=
  match x with
  | Some v => if truthy v then Ret v else getitem d key
  | None => getitem d key
  end.

(** [Settings.__init__], the [assert] statement executed. *)
Definition Settings_init {St} (config_section : gmap string Q)
    (timeout poll_time : option Q) : M St Settings :=
  self_timeout <- of_result (or_getitem timeout config_section "timeout") ;;
  self_poll_time <-
    of_result (or_getitem poll_time config_section "poll_time") ;;
  if Qgeb self_timeout self_poll_time
  then ret (mkSettings self_timeout self_poll_time)
  else raise AssertionError.

(** The spec's name for the failure of the assertion. *)
Definition InvalidConfiguration : exn := AssertionError.

Section Program.
Variable env : Env.

(** [get_logged_in_user]; a [return] inside a [try] is the [Some] the block
    hands on, and the error line is logged without the exception's text. *)
Definition get_logged_in_user : W string :=
  found <-
    try_except
      (out <- check_output env ListSeat0 ;;
       let seat0 := strip out in
       if nonempty seat0 then
         out <- check_output env (ShowSessionName seat0) ;;
         let user := strip out in
         if nonempty user then ret (Some user) else ret None
       else ret None)
      is_Exception (ret None) ;;
  match found with
  | Some user => ret user
  | None =>
      found <-
        try_except
          (out <- check_output env Who ;;
           ret (first_local_user (splitlines out)))
          is_Exception (ret None) ;;
      match found with
      | Some user => ret user
      | None =>
          try_except (getpass_getuser env) is_Exception
            (logger_error "Failed to get logged in user" ;;
             ret "unknown")
      end
  end.

(** [AFKWatcher.__init__] *)
Definition AFKWatcher_init (args : Args) (testing : bool) : W AFKWatcher :=
  config_section <- load_config env testing ;;
  self_settings <-
    Settings_init config_section (arg_timeout args) (arg_poll_time args) ;;
  username <- get_logged_in_user ;;
  self_client <-
    ActivityWatchClient env "aw-watcher-afk" (arg_host args) (arg_port args)
      testing ;;
  ret (mkAFKWatcher self_settings self_client
         (username +:+ "-afk_" +:+ client_hostname self_client)).

(** [AFKWatcher.ping] *)
Definition ping (afk : bool) (timestamp : Z) (duration : Q) : Meth unit :=
  self <- get_self ;;
  let data : gmap string string :=
    {[ "status" := if afk then "afk" else "not-afk" ]} in
  let e := mkEvent timestamp duration data in
  let pulsetime :=
    (timeout (settings self) + poll_time (settings self))%Q in
  lift (client_heartbeat (client self) (bucketname self) e pulsetime true).

(** How one pass through the body of [while True] ends. *)
Inductive control : Type :=
| Break
| Continue (afk : bool).

(** The body of the [try] block of [heartbeat_loop], [afk] being the
    flag on entry. *)
Definition tick (afk : bool) : Meth control :=
  self <- get_self ;;
  parent_died <-
    (if posix (system env)
     then (p <- lift (os_getppid env) ;; ret (p =? 1)%Z)
     else ret false) ;;
  if parent_died : bool then
    lift (logger_info "afkwatcher stopped because parent process died") ;;
    ret Break
  else
    now <- lift (datetime_now env) ;;
    seconds_since_input <- lift (seconds_since_last_input env) ;;
    let last_input := (now - timedelta_seconds seconds_since_input)%Z in
    lift (logger_debug_seconds seconds_since_input) ;;
    afk <-
      (if afk && Qltb seconds_since_input (timeout (settings self)) then
         lift (logger_info "No longer AFK") ;;
         ping afk last_input 0 ;;
         let afk := false in
         ping afk (last_input + td1ms)%Z 0 ;;
         ret afk
       else if negb afk
               && Qgeb seconds_since_input (timeout (settings self)) then
         lift (logger_info "Became AFK") ;;
         ping afk last_input 0 ;;
         let afk := true in
         ping afk (last_input + td1ms)%Z seconds_since_input ;;
         ret afk
       else
         (if afk then
            ping afk (last_input + td1ms)%Z seconds_since_input
          else ping afk last_input 0) ;;
         ret afk) ;;
    lift (sleep (poll_time (settings self))) ;;
    ret (Continue afk).

Definition is_KeyboardInterrupt (e : exn) : bool :=
  match e with KeyboardInterrupt => true | _ => false end.

(** One pass through the body of [while True]: the [try] block and its
    [except KeyboardInterrupt] handler. *)
Definition loop_body (afk : bool) : Meth control :=
  try_except (tick afk) is_KeyboardInterrupt
    (lift (logger_info "aw-watcher-afk stopped by keyboard interrupt") ;;
     ret Break).

(** [while True] from a given value of the flag. *)
Fixpoint heartbeat_loop_from (fuel : nat) (afk : bool) : Meth unit :=
  match fuel with
  | O => of_result Fuel
  | S fuel' =>
      c <- loop_body afk ;;
      match c with
      | Break => ret tt
      | Continue afk' => heartbeat_loop_from fuel' afk'
      end
  end.

(** [AFKWatcher.heartbeat_loop] *)
Definition heartbeat_loop (fuel : nat) : Meth unit :=
  let afk := false in
  heartbeat_loop_from fuel afk.

(** [AFKWatcher.run] *)
Definition run (fuel : nat) : Meth unit :=
  self <- get_self ;;
  lift (logger_info "aw-watcher-afk started") ;;
  lift (client_wait_for_start (client self)) ;;
  let eventtype := "afkstatus" in
  lift (client_create_bucket (client self) (bucketname self) eventtype
          true) ;;
  with_block (lift (client_enter (client self)))
    (heartbeat_loop fuel)
    (lift (client_exit (client self))).

(** ** __main__.py *)

Definition main (fuel : nat) : W unit :=
  args <- parse_args env ;;
  if running_over_ssh env then sys_exit 0
  else
    setup_logging "aw-watcher-afk" (arg_testing args) (arg_verbose args)
      true true ;;
    watcher <- AFKWatcher_init args (arg_testing args) ;;
    call watcher (run fuel).
End Program.

(** ** Reading a trace *)

(** What was done between two worlds of one run. *)
Definition since (w w' : World) : list effect :=
  drop (length (trace w)) (trace w').

Definition store_calls (l : list effect) : list effect :=
  List.filter is_store_call l.

(** The parent-death condition of the pre-check, on the sample the tick
    starting in [w] reads. *)
Definition parent_died (env : Env) (w : World) : Prop :=
  posix (system env) = true /\ ppid (samples env (tick_no w)) = 1%Z.

(** No keyboard interrupt is delivered within the next [n] operations. *)
Definition quiet (n : nat) (w : World) : Prop :=
  match sigint w with
  | None => True
  | Some k => (n <= k)%nat
  end.

(** The event [ping] builds for a status string. *)
Definition status_event (status : string) (timestamp : Z) (duration : Q)
    : Event :=
  mkEvent timestamp duration {[ "status" := status ]}.

(** The heartbeats of a trace: status, timestamp, duration. *)
Definition beats (l : list effect) : list (option string * Z * Q) :=
  flat_map
    (fun e =>
       match e with
       | Heartbeat _ ev _ _ =>
           [(data ev !! "status", timestamp ev, duration ev)]
       | _ => []
       end) l.

(** ** Describing what a method does to the trace *)

(** How a computation ended, whatever it returned. *)
Inductive kind : Type :=
| Normal
| Raised (e : exn)
| OutOfFuel.

Definition kind_of {A} (r : result A) : kind :=
  match r with
  | Ret _ => Normal
  | Raise e => Raised e
  | Fuel => OutOfFuel
  end.

(** The effects the methods of [self] ask for: log lines, sleeping for
    the poll time, and calls to the store that name the bucket of [self]
    and, for a heartbeat, carry the pulsetime of its settings. *)
Inductive expected (self : AFKWatcher) : effect -> Prop :=
| expected_Log lvl msg : expected self (Log lvl msg)
| expected_LogSeconds q : expected self (LogSeconds q)
| expected_Sleep : expected self (Sleep (poll_time (settings self)))
| expected_WaitForStart : expected self WaitForStart
| expected_Connect : expected self Connect
| expected_Disconnect : expected self Disconnect
| expected_CreateBucket :
    expected self (CreateBucket (bucketname self) "afkstatus" true)
| expected_Heartbeat e :
    expected self
      (Heartbeat (bucketname self) e
         (timeout (settings self) + poll_time (settings self))%Q true).

(** A description of runs: the pending interrupt before, the effects
    added, how the run ended, the pending interrupt after. *)
Definition shape : Type := option nat -> list effect -> kind -> option nat -> Prop.

(** Method [m] of [self] leaves the fields of [self] alone and only appends
    to the trace, as [Phi] describes. *)
Definition follows (Phi : shape) (self : AFKWatcher) {A} (m : Meth A) : Prop :=
  forall w, exists r w' new,
    m (self, w) = (r, (self, w'))
    /\ trace w' = trace w ++ new
    /\ Phi (sigint w) new (kind_of r) (sigint w').

(** Only expected effects and interrupts. *)
Definition only_expected (self : AFKWatcher) : shape :=
  fun _ new _ _ => Forall (fun e => e = Sigint \/ expected self e) new.

(** A run returns without an interrupt having been delivered, or ends by
    KeyboardInterrupt right after the one that was. *)
Definition interrupt_last : shape :=
  fun _ new k sg' =>
    match k with
    | Normal => ~ In Sigint new
    | Raised KeyboardInterrupt =>
        sg' = None /\ exists pre, new = pre ++ [Sigint] /\ ~ In Sigint pre
    | _ => False
    end.

(** ** Concrete inputs *)

(** A configuration with the upstream defaults. *)
Definition default_config : gmap string Q :=
  {[ "timeout" := 180%Q; "poll_time" := 5%Q ]}.

(** The idle-time feed 5, 9, 10, 11, 9 of the boundary test, one sample
    every five seconds, the parent process alive. *)
Definition boundary_feed (n : nat) : Sample :=
  mkSample 4242 (1000000000 + Z.of_nat n * 5000000)
    (nth n [5%Q; 9%Q; 10%Q; 11%Q; 9%Q] 0%Q).

Definition no_args : Args := mkArgs None None false false None None.

(** A Linux desktop: seat0 holds session 2 of alice, the timeout is 10 and
    the poll time 5. *)
Definition desktop : Env :=
  mkEnv Linux empty no_args
    (fun _ => {[ "timeout" := 10%Q; "poll_time" := 5%Q ]})
    (fun cmd =>
       match cmd with
       | ListSeat0 => Some "2"
       | ShowSessionName _ => Some "alice"
       | Who => None
       end)
    (Some "alice") "box" boundary_feed.

(** The same machine reached over SSH. *)
Definition over_ssh : Env :=
  mkEnv Linux {[ "SSH_TTY" := "/dev/pts/0" ]} no_args
    (config desktop) (shell desktop) (getuser desktop) (hostname desktop)
    (samples desktop).

(** The same machine after the parent process has died. *)
Definition orphaned : Env :=
  mkEnv Linux empty no_args
    (config desktop) (shell desktop) (getuser desktop) (hostname desktop)
    (fun n => mkSample 1 (now (boundary_feed n)) (idle (boundary_feed n))).

Definition alice_watcher : AFKWatcher :=
  mkAFKWatcher (mkSettings 10 5)
    (mkClient "aw-watcher-afk" None None false "box") "alice-afk_box".

(** The world at the start of tick [n], no interrupt pending. *)
Definition at_tick (n : nat) : World := mkWorld n None [].

(** ** Further descriptions of runs *)

(** The computation appends to the trace, and only effects that are
    [allowed]; [world_of] finds the world in the state. *)
Definition emits_only {St} (world_of : St -> World) (allowed : effect -> Prop)
    {A} (m : M St A) : Prop :=
  forall s, exists new,
    trace (world_of (snd (m s))) = trace (world_of s) ++ new
    /\ Forall allowed new.

(** What the heartbeat loop may do: log, sleep, be interrupted, and send
    queued heartbeats whose data is the one key [status], afk or not-afk,
    a not-afk one with duration 0. *)
Inductive loop_effect : effect -> Prop :=
| loop_Log lvl msg : loop_effect (Log lvl msg)
| loop_LogSeconds q : loop_effect (LogSeconds q)
| loop_Sleep q : loop_effect (Sleep q)
| loop_Sigint : loop_effect Sigint
| loop_afk bucket_id ts d pulsetime :
    loop_effect (Heartbeat bucket_id (status_event "afk" ts d) pulsetime true)
| loop_not_afk bucket_id ts pulsetime :
    loop_effect
      (Heartbeat bucket_id (status_event "not-afk" ts 0) pulsetime true).

(** What [run] does before the loop, nothing interrupting. *)
Definition startup (self : AFKWatcher) : list effect :=
  [Log INFO "aw-watcher-afk started"; WaitForStart;
   CreateBucket (bucketname self) "afkstatus" true; Connect].

(** The number of times a trace sleeps. *)
Definition sleeps (l : list effect) : nat :=
  length (List.filter (fun e => match e with Sleep _ => true | _ => false end) l).

(** When the method returns with an interrupt pending, the interrupt is
    still pending and no further off ([strict]: nearer). *)
Definition counts_down (strict : bool) {A} (m : Meth A) : Prop :=
  forall s a s' n,
    m s = (Ret a, s') -> sigint (snd s) = Some n ->
    exists n', sigint (snd s') = Some n'
               /\ if strict then (n' < n)%nat else (n' <= n)%nat.


(** A machine without seat0 where [who] lists an SSH session of bob before
    the console session of alice. *)
Definition two_sessions : Env :=
  mkEnv Linux empty no_args (config desktop)
    (fun cmd =>
       match cmd with
       | Who => Some "bob pts/0 2024-05-01 10:00
alice tty2 2024-05-01 09:00
"
       | _ => Some ""
       end)
    (Some "root") "box" boundary_feed.

(** The desktop with a configuration whose timeout is below the poll
    time. *)
Definition misconfigured : Env :=
  mkEnv Linux empty no_args
    (fun _ => {[ "timeout" := 3%Q; "poll_time" := 5%Q ]})
    (shell desktop) (getuser desktop) (hostname desktop) (samples desktop).



(** * Properties *)

(** ** Comparisons *)

Lemma Qltb_lt (x y : Q) : Qltb x y = true <-> (x < y)%Q.
Proof.
  unfold Qltb. rewrite Qlt_alt. destruct (x ?= y)%Q; split; congruence.
Qed.

Lemma Qgeb_le (x y : Q) : Qgeb x y = true <-> (y <= x)%Q.
Proof.
  unfold Qgeb. split.
  - intros H. apply Qnot_lt_le. rewrite Qlt_alt. destruct (x ?= y)%Q; congruence.
  - intros H. destruct (x ?= y)%Q eqn:E; try reflexivity.
    apply Qlt_alt in E. exfalso. exact (Qlt_not_le _ _ E H).
Qed.

Lemma Qgeb_negb_Qltb (x y : Q) : Qgeb x y = negb (Qltb x y).
Proof. unfold Qgeb, Qltb. destruct (x ?= y)%Q; reflexivity. Qed.

Lemma Qltb_false_le (x y : Q) : Qltb x y = false <-> (y <= x)%Q.
Proof.
  rewrite <- Qgeb_le, Qgeb_negb_Qltb. destruct (Qltb x y); simpl; split; congruence.
Qed.

Lemma truthy_nonzero (x : Q) : truthy x = true <-> ~ (x == 0)%Q.
Proof.
  unfold truthy, Qeq. simpl. rewrite Z.mul_1_r, negb_true_iff, Z.eqb_neq.
  reflexivity.
Qed.

(** ** Settings *)

Lemma Settings_init_state {St} cfg ot op (s : St) :
  snd (Settings_init cfg ot op s) = s.
Proof.
  unfold Settings_init, bind, of_result, ret, raise.
  destruct (or_getitem ot cfg "timeout"); simpl; try reflexivity.
  destruct (or_getitem op cfg "poll_time"); simpl; try reflexivity.
  destruct (Qgeb a a0); reflexivity.
Qed.

Lemma Settings_init_resolved {St} cfg ot op (s : St) t p :
  or_getitem ot cfg "timeout" = Ret t ->
  or_getitem op cfg "poll_time" = Ret p ->
  Settings_init cfg ot op s =
    if Qgeb t p then (Ret (mkSettings t p), s) else (Raise AssertionError, s).
Proof.
  intros Ht Hp. unfold Settings_init, bind, of_result. rewrite Ht, Hp.
  destruct (Qgeb t p); reflexivity.
Qed.

(** C4. With [t] and [p] the resolved timeout and poll time, resolution
    fails with the assertion's error (the spec's InvalidConfiguration)
    exactly when [t < p], and when [t >= p] it returns the Settings with
    these two fields. *)
Theorem C4_settings_invalid_iff {St : Type} (config_section : gmap string Q)
    (timeout_override poll_time_override : option Q) (t p : Q) (s : St) :
  or_getitem timeout_override config_section "timeout" = Ret t ->
  or_getitem poll_time_override config_section "poll_time" = Ret p ->
  (Settings_init config_section timeout_override poll_time_override s
     = (Raise InvalidConfiguration, s) <-> (t < p)%Q)
  /\ ((p <= t)%Q ->
      Settings_init config_section timeout_override poll_time_override s
        = (Ret (mkSettings t p), s)).
Proof.
  intros Ht Hp. rewrite (Settings_init_resolved _ _ _ s t p Ht Hp).
  rewrite <- Qltb_lt, <- Qgeb_le, Qgeb_negb_Qltb.
  destruct (Qltb t p); simpl; split; try split;
    intros H; try reflexivity; try discriminate; inversion H.
Qed.

Lemma C4_settings_invalid_iff_witness :
  (Settings_init default_config (Some 3%Q) None tt
     = (Raise InvalidConfiguration, tt) <-> (3 < 5)%Q)
  /\ ((5 <= 3)%Q ->
      Settings_init default_config (Some 3%Q) None tt
        = (Ret (mkSettings 3 5), tt)).
Proof.
  apply (C4_settings_invalid_iff default_config (Some 3%Q) None 3 5 tt);
    reflexivity.
Defined.

(** C5, as amended.  When resolution returns, the timeout is the override
    if one is given and is not zero, and the configured timeout if none is
    given or the one given is zero; likewise the poll time. *)
Theorem C5_settings_resolution {St : Type} (config_section : gmap string Q)
    (timeout_override poll_time_override : option Q) (s s' : St)
    (r : Settings) :
  Settings_init config_section timeout_override poll_time_override s
    = (Ret r, s') ->
  match timeout_override with
  | Some v =>
      (~ (v == 0)%Q -> timeout r = v)
      /\ ((v == 0)%Q -> config_section !! "timeout" = Some (timeout r))
  | None => config_section !! "timeout" = Some (timeout r)
  end
  /\
  match poll_time_override with
  | Some v =>
      (~ (v == 0)%Q -> poll_time r = v)
      /\ ((v == 0)%Q -> config_section !! "poll_time" = Some (poll_time r))
  | None => config_section !! "poll_time" = Some (poll_time r)
  end.
Proof.
  unfold Settings_init, bind, of_result, ret, raise.
  destruct (or_getitem timeout_override config_section "timeout") as [t| |] eqn:Et;
    try discriminate.
  destruct (or_getitem poll_time_override config_section "poll_time") as [p| |] eqn:Ep;
    try discriminate.
  destruct (Qgeb t p); try discriminate.
  intros H. inversion H; subst; clear H. simpl.
  assert (Hone : forall (o : option Q) key v,
             or_getitem o config_section key = Ret v ->
             match o with
             | Some x =>
                 (~ (x == 0)%Q -> v = x)
                 /\ ((x == 0)%Q -> config_section !! key = Some v)
             | None => config_section !! key = Some v
             end).
  { intros o key v. unfold or_getitem, getitem.
    destruct o as [x|].
    - destruct (truthy x) eqn:Ex.
      + apply truthy_nonzero in Ex. intros H. inversion H; subst.
        split; [reflexivity | contradiction].
      + intros H. split.
        * intros Hn. apply truthy_nonzero in Hn. congruence.
        * intros _. destruct (config_section !! key); inversion H; reflexivity.
    - intros H. destruct (config_section !! key); inversion H; reflexivity. }
  split; [exact (Hone _ _ _ Et) | exact (Hone _ _ _ Ep)].
Qed.

Lemma C5_settings_resolution_witness :
  ((~ (60 == 0)%Q -> timeout (mkSettings 60 5) = 60%Q)
   /\ ((60 == 0)%Q ->
       default_config !! "timeout" = Some (timeout (mkSettings 60 5))))
  /\ ((~ (0 == 0)%Q -> poll_time (mkSettings 60 5) = 0%Q)
      /\ ((0 == 0)%Q ->
          default_config !! "poll_time" = Some (poll_time (mkSettings 60 5)))).
Proof.
  apply (C5_settings_resolution default_config (Some 60%Q) (Some 0%Q) tt tt
           (mkSettings 60 5)).
  reflexivity.
Defined.

(** C5 as stated fails: a poll-time override of zero is provided, and the
    resolved poll time is the configured 5, not the override. *)
Lemma C5_override_zero_ignored :
  exists r : Settings,
    Settings_init default_config None (Some 0%Q) tt = (Ret r, tt)
    /\ ~ (poll_time r == 0)%Q.
Proof.
  exists (mkSettings 180 5). split; [reflexivity | discriminate].
Qed.

(** ** Running one tick *)

Lemma since_app (w w' : World) (new : list effect) :
  trace w' = trace w ++ new -> since w w' = new.
Proof. intros H. unfold since. rewrite H. apply drop_app_length. Qed.

Lemma bind_step {St A B} (m : M St A) (k : A -> M St B) s a s' :
  m s = (Ret a, s') -> bind m k s = k a s'.
Proof. intros H. unfold bind. rewrite H. reflexivity. Qed.

Lemma loop_continue env fuel afk afk' s s' :
  tick env afk s = (Ret (Continue afk'), s') ->
  heartbeat_loop_from env (S fuel) afk s = heartbeat_loop_from env fuel afk' s'.
Proof.
  intros H. simpl. unfold bind, loop_body, try_except. rewrite H. reflexivity.
Qed.

Lemma loop_break env fuel afk s s' :
  loop_body env afk s = (Ret Break, s') ->
  heartbeat_loop_from env (S fuel) afk s = (Ret tt, s').
Proof. intros H. simpl. unfold bind. rewrite H. reflexivity. Qed.

Lemma alive_check env w :
  ~ parent_died env w ->
  (if posix (system env) then (ppid (samples env (tick_no w)) =? 1)%Z
   else false) = false.
Proof.
  unfold parent_died. intros H. destruct (posix (system env)); [|reflexivity].
  apply Z.eqb_neq. intros E. apply H. split; [reflexivity | exact E].
Qed.

(** Run the next operation of a sequence on a world whose fields are
    known. *)
Ltac step :=
  erewrite bind_step by reflexivity;
  cbv beta iota zeta delta [fst snd tick_no sigint trace].

(** Run a whole tick once the outcome of the pre-check ([Hp]) and of the
    comparison with the timeout ([Hcmp]) are known. *)
Ltac run_tick Hsys Hp Hcmp :=
  unfold tick; step; rewrite Hsys; step; try rewrite Hp; cbv beta iota;
  repeat step; rewrite ?Hcmp; cbv beta iota delta [andb negb];
  rewrite ?Hcmp; cbv beta iota delta [andb negb];
  repeat step; reflexivity.

Tactic Notation "tick_cases" ident(sg) integer(n) ident(Hq) ident(Hsys) :=
  destruct sg as [sg|];
  [do n (destruct sg as [|sg]; [exfalso; simpl in Hq; lia|])|];
  destruct (posix (system _)) eqn:Hsys.

Section Ticks.
Variable env : Env.
Variable self : AFKWatcher.
Variable w : World.

Let seconds_since_input : Q := idle (samples env (tick_no w)).
Let last_input : Z :=
  (now (samples env (tick_no w)) - timedelta_seconds seconds_since_input)%Z.
Let pulsetime : Q := (timeout (settings self) + poll_time (settings self))%Q.
Let beat (status : string) (timestamp : Z) (duration : Q) : effect :=
  Heartbeat (bucketname self) (status_event status timestamp duration)
    pulsetime true.

Hypothesis alive : ~ parent_died env w.

Lemma tick_no_longer_afk :
  quiet 8 w ->
  Qltb seconds_since_input (timeout (settings self)) = true ->
  exists w',
    tick env true (self, w) = (Ret (Continue false), (self, w'))
    /\ trace w' = trace w ++
         [LogSeconds seconds_since_input; Log INFO "No longer AFK";
          beat "afk" last_input 0;
          beat "not-afk" (last_input + td1ms)%Z 0;
          Sleep (poll_time (settings self))].
Proof.
  intros Hq Hcmp. pose proof (alive_check _ _ alive) as Hp.
  subst beat pulsetime last_input seconds_since_input.
  destruct w as [t sg tr]. unfold quiet in Hq. cbv [tick_no sigint trace] in *.
  tick_cases sg 8 Hq Hsys; eexists;
    (split; [run_tick Hsys Hp Hcmp
            | cbv [trace]; rewrite <- !app_assoc; reflexivity]).
Qed.

Lemma tick_became_afk :
  quiet 8 w ->
  Qgeb seconds_since_input (timeout (settings self)) = true ->
  exists w',
    tick env false (self, w) = (Ret (Continue true), (self, w'))
    /\ trace w' = trace w ++
         [LogSeconds seconds_since_input; Log INFO "Became AFK";
          beat "not-afk" last_input 0;
          beat "afk" (last_input + td1ms)%Z seconds_since_input;
          Sleep (poll_time (settings self))].
Proof.
  intros Hq Hcmp. pose proof (alive_check _ _ alive) as Hp.
  subst beat pulsetime last_input seconds_since_input.
  destruct w as [t sg tr]. unfold quiet in Hq. cbv [tick_no sigint trace] in *.
  tick_cases sg 8 Hq Hsys; eexists;
    (split; [run_tick Hsys Hp Hcmp
            | cbv [trace]; rewrite <- !app_assoc; reflexivity]).
Qed.

Lemma tick_still_afk :
  quiet 6 w ->
  Qltb seconds_since_input (timeout (settings self)) = false ->
  exists w',
    tick env true (self, w) = (Ret (Continue true), (self, w'))
    /\ trace w' = trace w ++
         [LogSeconds seconds_since_input;
          beat "afk" (last_input + td1ms)%Z seconds_since_input;
          Sleep (poll_time (settings self))].
Proof.
  intros Hq Hcmp. pose proof (alive_check _ _ alive) as Hp.
  subst beat pulsetime last_input seconds_since_input.
  destruct w as [t sg tr]. unfold quiet in Hq. cbv [tick_no sigint trace] in *.
  tick_cases sg 6 Hq Hsys; eexists;
    (split; [run_tick Hsys Hp Hcmp
            | cbv [trace]; rewrite <- !app_assoc; reflexivity]).
Qed.

Lemma tick_still_not_afk :
  quiet 6 w ->
  Qgeb seconds_since_input (timeout (settings self)) = false ->
  exists w',
    tick env false (self, w) = (Ret (Continue false), (self, w'))
    /\ trace w' = trace w ++
         [LogSeconds seconds_since_input;
          beat "not-afk" last_input 0;
          Sleep (poll_time (settings self))].
Proof.
  intros Hq Hcmp. pose proof (alive_check _ _ alive) as Hp.
  subst beat pulsetime last_input seconds_since_input.
  destruct w as [t sg tr]. unfold quiet in Hq. cbv [tick_no sigint trace] in *.
  tick_cases sg 6 Hq Hsys; eexists;
    (split; [run_tick Hsys Hp Hcmp
            | cbv [trace]; rewrite <- !app_assoc; reflexivity]).
Qed.

End Ticks.

(** ** The decision table *)

(** C1, as amended.  A tick that starts AFK, is not cut short (the parent
    is alive, no keyboard interrupt within its eight operations) and reads
    [seconds_since_input < timeout] leaves the flag at NOT_AFK and makes
    exactly two store calls, in this order: a heartbeat with the status
    being left, afk, at [last_input] with duration 0, then a heartbeat with
    status not-afk at [last_input + 1ms] with duration 0. *)
Theorem C1_no_longer_afk (env : Env) (fuel : nat) (self : AFKWatcher)
    (w : World) :
  let seconds_since_input := idle (samples env (tick_no w)) in
  let last_input :=
    (now (samples env (tick_no w)) - timedelta_seconds seconds_since_input)%Z in
  let pulsetime := (timeout (settings self) + poll_time (settings self))%Q in
  quiet 8 w ->
  ~ parent_died env w ->
  (seconds_since_input < timeout (settings self))%Q ->
  exists w',
    tick env true (self, w) = (Ret (Continue false), (self, w'))
    /\ heartbeat_loop_from env (S fuel) true (self, w)
       = heartbeat_loop_from env fuel false (self, w')
    /\ store_calls (since w w')
       = [Heartbeat (bucketname self) (status_event "afk" last_input 0)
            pulsetime true;
          Heartbeat (bucketname self)
            (status_event "not-afk" (last_input + td1ms) 0) pulsetime true].
Proof.
  intros ssi li pt Hq Hp Hlt. apply Qltb_lt in Hlt.
  destruct (tick_no_longer_afk env self w Hp Hq Hlt) as (w' & Ht & Htr).
  exists w'. split; [exact Ht|]. split.
  - exact (loop_continue _ _ _ _ _ _ Ht).
  - rewrite (since_app _ _ _ Htr). reflexivity.
Qed.

Lemma C1_no_longer_afk_witness :
  exists w',
    tick desktop true (alice_watcher, at_tick 4)
      = (Ret (Continue false), (alice_watcher, w'))
    /\ store_calls (since (at_tick 4) w')
       = [Heartbeat "alice-afk_box" (status_event "afk" 1011000000 0) 15 true;
          Heartbeat "alice-afk_box" (status_event "not-afk" 1011001000 0) 15
            true].
Proof.
  destruct (C1_no_longer_afk desktop 0 alice_watcher (at_tick 4))
    as (w' & Ht & _ & Hcalls).
  - exact I.
  - intros [_ H]. discriminate H.
  - reflexivity.
  - exists w'. split; [exact Ht | exact Hcalls].
Defined.

(** C1 as stated fails: on the tick that reads 9 seconds of idle time with
    a timeout of 10 while AFK, the store calls are not the two not-afk
    heartbeats of the claim (the first one carries afk). *)
Lemma C1_first_heartbeat_not_as_stated :
  store_calls
    (since (at_tick 4)
       (snd (snd (tick desktop true (alice_watcher, at_tick 4)))))
  <> [Heartbeat "alice-afk_box" (status_event "not-afk" 1011000000 0) 15 true;
      Heartbeat "alice-afk_box" (status_event "not-afk" 1011001000 0) 15 true].
Proof.
  intros H.
  apply (f_equal (fun l =>
           match l with
           | Heartbeat _ e _ _ :: _ => data e !! "status"
           | _ => None
           end)) in H.
  vm_compute in H. discriminate H.
Qed.

(** C2, as amended.  A tick that starts NOT_AFK, is not cut short and reads
    [seconds_since_input >= timeout] leaves the flag at AFK and makes
    exactly two store calls, in this order: a heartbeat with the status
    being left, not-afk, at [last_input] with duration 0, then a heartbeat
    with status afk at [last_input + 1ms] with duration
    [seconds_since_input]. *)
Theorem C2_became_afk (env : Env) (fuel : nat) (self : AFKWatcher)
    (w : World) :
  let seconds_since_input := idle (samples env (tick_no w)) in
  let last_input :=
    (now (samples env (tick_no w)) - timedelta_seconds seconds_since_input)%Z in
  let pulsetime := (timeout (settings self) + poll_time (settings self))%Q in
  quiet 8 w ->
  ~ parent_died env w ->
  (timeout (settings self) <= seconds_since_input)%Q ->
  exists w',
    tick env false (self, w) = (Ret (Continue true), (self, w'))
    /\ heartbeat_loop_from env (S fuel) false (self, w)
       = heartbeat_loop_from env fuel true (self, w')
    /\ store_calls (since w w')
       = [Heartbeat (bucketname self) (status_event "not-afk" last_input 0)
            pulsetime true;
          Heartbeat (bucketname self)
            (status_event "afk" (last_input + td1ms) seconds_since_input)
            pulsetime true].
Proof.
  intros ssi li pt Hq Hp Hge. apply Qgeb_le in Hge.
  destruct (tick_became_afk env self w Hp Hq Hge) as (w' & Ht & Htr).
  exists w'. split; [exact Ht|]. split.
  - exact (loop_continue _ _ _ _ _ _ Ht).
  - rewrite (since_app _ _ _ Htr). reflexivity.
Qed.

Lemma C2_became_afk_witness :
  exists w',
    tick desktop false (alice_watcher, at_tick 2)
      = (Ret (Continue true), (alice_watcher, w'))
    /\ store_calls (since (at_tick 2) w')
       = [Heartbeat "alice-afk_box" (status_event "not-afk" 1000000000 0) 15
            true;
          Heartbeat "alice-afk_box" (status_event "afk" 1000001000 10) 15
            true].
Proof.
  destruct (C2_became_afk desktop 0 alice_watcher (at_tick 2))
    as (w' & Ht & _ & Hcalls).
  - exact I.
  - intros [_ H]. discriminate H.
  - intros H. discriminate H.
  - exists w'. split; [exact Ht | exact Hcalls].
Defined.

(** C2 as stated fails: on the tick that reads 10 seconds of idle time with
    a timeout of 10 while NOT_AFK, the store calls are not the two afk
    heartbeats of the claim (the first one carries not-afk). *)
Lemma C2_first_heartbeat_not_as_stated :
  store_calls
    (since (at_tick 2)
       (snd (snd (tick desktop false (alice_watcher, at_tick 2)))))
  <> [Heartbeat "alice-afk_box" (status_event "afk" 1000000000 0) 15 true;
      Heartbeat "alice-afk_box" (status_event "afk" 1000001000 10) 15 true].
Proof.
  intros H.
  apply (f_equal (fun l =>
           match l with
           | Heartbeat _ e _ _ :: _ => data e !! "status"
           | _ => None
           end)) in H.
  vm_compute in H. discriminate H.
Qed.

(** C3.  The loop starts with the flag at NOT_AFK, and a tick that is not
    cut short and changes nothing makes exactly one store call: staying AFK
    ([seconds_since_input >= timeout]) a heartbeat with status afk at
    [last_input + 1ms] with duration [seconds_since_input]; staying NOT_AFK
    ([seconds_since_input < timeout]) a heartbeat with status not-afk at
    [last_input] with duration 0. *)
Theorem C3_no_change (env : Env) (fuel : nat) (self : AFKWatcher)
    (w : World) :
  let seconds_since_input := idle (samples env (tick_no w)) in
  let last_input :=
    (now (samples env (tick_no w)) - timedelta_seconds seconds_since_input)%Z in
  let pulsetime := (timeout (settings self) + poll_time (settings self))%Q in
  quiet 6 w ->
  ~ parent_died env w ->
  heartbeat_loop env fuel = heartbeat_loop_from env fuel false
  /\ ((timeout (settings self) <= seconds_since_input)%Q ->
      exists w',
        tick env true (self, w) = (Ret (Continue true), (self, w'))
        /\ heartbeat_loop_from env (S fuel) true (self, w)
           = heartbeat_loop_from env fuel true (self, w')
        /\ store_calls (since w w')
           = [Heartbeat (bucketname self)
                (status_event "afk" (last_input + td1ms) seconds_since_input)
                pulsetime true])
  /\ ((seconds_since_input < timeout (settings self))%Q ->
      exists w',
        tick env false (self, w) = (Ret (Continue false), (self, w'))
        /\ heartbeat_loop_from env (S fuel) false (self, w)
           = heartbeat_loop_from env fuel false (self, w')
        /\ store_calls (since w w')
           = [Heartbeat (bucketname self) (status_event "not-afk" last_input 0)
                pulsetime true]).
Proof.
  intros ssi li pt Hq Hp. split; [reflexivity|]. split.
  - intros Hge. apply Qltb_false_le in Hge.
    destruct (tick_still_afk env self w Hp Hq Hge) as (w' & Ht & Htr).
    exists w'. split; [exact Ht|]. split.
    + exact (loop_continue _ _ _ _ _ _ Ht).
    + rewrite (since_app _ _ _ Htr). reflexivity.
  - intros Hlt. apply Qltb_lt in Hlt.
    assert (Hge : Qgeb ssi (timeout (settings self)) = false)
      by (rewrite Qgeb_negb_Qltb, Hlt; reflexivity).
    destruct (tick_still_not_afk env self w Hp Hq Hge) as (w' & Ht & Htr).
    exists w'. split; [exact Ht|]. split.
    + exact (loop_continue _ _ _ _ _ _ Ht).
    + rewrite (since_app _ _ _ Htr). reflexivity.
Qed.

Lemma C3_no_change_witness :
  (exists w',
     tick desktop true (alice_watcher, at_tick 3)
       = (Ret (Continue true), (alice_watcher, w'))
     /\ store_calls (since (at_tick 3) w')
        = [Heartbeat "alice-afk_box" (status_event "afk" 1004001000 11) 15
             true])
  /\ (exists w',
        tick desktop false (alice_watcher, at_tick 0)
          = (Ret (Continue false), (alice_watcher, w'))
        /\ store_calls (since (at_tick 0) w')
           = [Heartbeat "alice-afk_box" (status_event "not-afk" 995000000 0)
                15 true]).
Proof.
  split.
  - destruct (C3_no_change desktop 0 alice_watcher (at_tick 3))
      as (_ & Hafk & _).
    + exact I.
    + intros [_ H]. discriminate H.
    + destruct Hafk as (w' & Ht & _ & Hcalls).
      * intros H. discriminate H.
      * exists w'. split; [exact Ht | exact Hcalls].
  - destruct (C3_no_change desktop 0 alice_watcher (at_tick 0))
      as (_ & _ & Hnot).
    + exact I.
    + intros [_ H]. discriminate H.
    + destruct Hnot as (w' & Ht & _ & Hcalls).
      * reflexivity.
      * exists w'. split; [exact Ht | exact Hcalls].
Defined.

(** The boundary test: idle times 5, 9, 10, 11, 9 against a timeout of 10,
    one sample every five seconds from instant 1000000000. *)
Example boundary_test :
  beats (trace (snd (snd (heartbeat_loop desktop 5 (alice_watcher, at_tick 0)))))
  = [ (Some "not-afk", 995000000, 0%Q);
      (Some "not-afk", 996000000, 0%Q);
      (Some "not-afk", 1000000000, 0%Q); (Some "afk", 1000001000, 10%Q);
      (Some "afk", 1004001000, 11%Q);
      (Some "afk", 1011000000, 0%Q); (Some "not-afk", 1011001000, 0%Q) ]%Z.
Proof. vm_compute. reflexivity. Qed.

(** ** Running over SSH *)

Lemma running_over_ssh_true (env : Env) :
  (exists v, environ env !! "SSH_CLIENT" = Some v /\ v <> "")
  \/ (exists v, environ env !! "SSH_TTY" = Some v /\ v <> "") ->
  running_over_ssh env = true.
Proof.
  assert (Hne : forall v : string, v <> "" -> nonempty v = true)
    by (intros [|a v] Hv; [contradiction | reflexivity]).
  unfold running_over_ssh.
  intros [(v & Hv & Hn) | (v & Hv & Hn)]; rewrite Hv.
  - simpl. rewrite (Hne v Hn). simpl. exact (Hne v Hn).
  - destruct (str_truthy (environ env !! "SSH_CLIENT")) eqn:E.
    + exact E.
    + simpl. exact (Hne v Hn).
Qed.

(** C10.  With SSH_CLIENT or SSH_TTY set to a non-empty value the program
    ends by [sys.exit(0)] and the world is as it was: no watcher was
    constructed, no settings were resolved, no call reached the store. *)
Theorem C10_ssh_exits_first (env : Env) (fuel : nat) (w : World) :
  (exists v, environ env !! "SSH_CLIENT" = Some v /\ v <> "")
  \/ (exists v, environ env !! "SSH_TTY" = Some v /\ v <> "") ->
  main env fuel w = (Raise (SystemExit 0), w).
Proof.
  intros H. unfold main, parse_args, bind, ret.
  rewrite (running_over_ssh_true env H). reflexivity.
Qed.

Lemma C10_ssh_exits_first_witness :
  main over_ssh 3 (at_tick 0) = (Raise (SystemExit 0), at_tick 0).
Proof.
  apply (C10_ssh_exits_first over_ssh 3 (at_tick 0)).
  right. exists "/dev/pts/0". split; [reflexivity | discriminate].
Defined.

(** ** Rules for [follows] *)

Section TraceLogic.
Variable Phi : shape.
Variable self : AFKWatcher.

Hypothesis Phi_nil : forall sg, Phi sg [] Normal sg.
Hypothesis Phi_seq : forall sg l1 sg1 l2 k sg2,
  Phi sg l1 Normal sg1 -> Phi sg1 l2 k sg2 -> Phi sg (l1 ++ l2) k sg2.
Hypothesis Phi_pass : forall n, Phi (Some (S n)) [] Normal (Some n).
Hypothesis Phi_sigint : Phi (Some O) [Sigint] (Raised KeyboardInterrupt) None.
Hypothesis Phi_emit : forall sg e, expected self e -> Phi sg [e] Normal sg.

Lemma follows_ret {A} (a : A) : follows Phi self (ret a).
Proof.
  intros w. exists (Ret a), w, []. rewrite app_nil_r. auto.
Qed.

Lemma follows_bind {A B} (m : Meth A) (k : A -> Meth B) :
  follows Phi self m -> (forall a, follows Phi self (k a)) ->
  follows Phi self (bind m k).
Proof.
  intros Hm Hk w. destruct (Hm w) as (r & w1 & l1 & Em & Et & HP).
  unfold bind. rewrite Em. destruct r as [a|e|].
  - destruct (Hk a w1) as (r2 & w2 & l2 & Ek & Et2 & HP2).
    exists r2, w2, (l1 ++ l2). split; [exact Ek|]. split.
    + rewrite Et2, Et, app_assoc. reflexivity.
    + exact (Phi_seq _ _ _ _ _ _ HP HP2).
  - exists (Raise e), w1, l1. auto.
  - exists Fuel, w1, l1. auto.
Qed.

Lemma follows_self {A} (k : AFKWatcher -> Meth A) :
  follows Phi self (k self) -> follows Phi self (bind get_self k).
Proof. intros Hk w. exact (Hk w). Qed.

Lemma follows_if {A} (b : bool) (m1 m2 : Meth A) :
  follows Phi self m1 -> follows Phi self m2 ->
  follows Phi self (if b then m1 else m2).
Proof. destruct b; auto. Qed.

Lemma follows_observe {A} (f : World -> A) : follows Phi self (lift (observe f)).
Proof.
  intros [t [[|n]|] tr]; cbv [lift observe bind checkpoint fst snd sigint tick_no trace].
  - eexists _, _, [Sigint]. split; [reflexivity|]. split; [reflexivity | exact Phi_sigint].
  - eexists _, _, []. split; [reflexivity|]. split; [symmetry; apply app_nil_r | apply Phi_pass].
  - eexists _, _, []. split; [reflexivity|]. split; [symmetry; apply app_nil_r | apply Phi_nil].
Qed.

Lemma follows_perform (e : effect) :
  expected self e -> follows Phi self (lift (perform e)).
Proof.
  intros He [t [[|n]|] tr];
    cbv [lift perform emit bind checkpoint fst snd sigint tick_no trace].
  - eexists _, _, [Sigint]. split; [reflexivity|]. split; [reflexivity | exact Phi_sigint].
  - eexists _, _, ([] ++ [e]). split; [reflexivity|]. split; [reflexivity|].
    exact (Phi_seq _ _ _ _ _ _ (Phi_pass n) (Phi_emit _ _ He)).
  - eexists _, _, [e]. split; [reflexivity|]. split; [reflexivity | exact (Phi_emit _ _ He)].
Qed.

Lemma follows_sleep :
  follows Phi self (lift (sleep (poll_time (settings self)))).
Proof.
  pose proof (expected_Sleep self) as He.
  intros [t [[|n]|] tr];
    cbv [lift sleep perform emit bind checkpoint fst snd sigint tick_no trace].
  - eexists _, _, [Sigint]. split; [reflexivity|]. split; [reflexivity | exact Phi_sigint].
  - eexists _, _, ([] ++ [_]). split; [reflexivity|]. split; [reflexivity|].
    exact (Phi_seq _ _ _ _ _ _ (Phi_pass n) (Phi_emit _ _ He)).
  - eexists _, _, [_]. split; [reflexivity|]. split; [reflexivity | exact (Phi_emit _ _ He)].
Qed.

Lemma follows_ping afk ts dur : follows Phi self (ping afk ts dur).
Proof.
  unfold ping. apply follows_self. apply follows_perform. constructor.
Qed.

Lemma follows_tick env afk : follows Phi self (tick env afk).
Proof.
  unfold tick, logger_info, logger_debug_seconds, os_getppid, datetime_now,
    seconds_since_last_input.
  apply follows_self.
  repeat first
    [ apply follows_ret
    | apply follows_ping
    | apply follows_sleep
    | apply follows_observe
    | apply follows_perform; constructor
    | apply follows_if
    | apply follows_bind; [|intros ?] ].
Qed.

End TraceLogic.

(** ** Only expected effects: ticks, the loop, [run] *)

Create HintDb shapes.

Lemma only_expected_nil self sg : only_expected self sg [] Normal sg.
Proof. constructor. Qed.

Lemma only_expected_seq self sg l1 sg1 l2 k sg2 :
  only_expected self sg l1 Normal sg1 -> only_expected self sg1 l2 k sg2 ->
  only_expected self sg (l1 ++ l2) k sg2.
Proof. unfold only_expected. intros H1 H2. apply Forall_app. split; assumption. Qed.

Lemma only_expected_pass self n :
  only_expected self (Some (S n)) [] Normal (Some n).
Proof. constructor. Qed.

Lemma only_expected_sigint self :
  only_expected self (Some O) [Sigint] (Raised KeyboardInterrupt) None.
Proof. constructor; [left; reflexivity | constructor]. Qed.

Lemma only_expected_emit self sg e :
  expected self e -> only_expected self sg [e] Normal sg.
Proof. intros H. constructor; [right; exact H | constructor]. Qed.

#[local] Hint Resolve only_expected_nil only_expected_seq only_expected_pass
  only_expected_sigint only_expected_emit : shapes.

Section OnlyExpected.
Variable env : Env.
Variable self : AFKWatcher.

Notation "'obeys'" := (follows (only_expected self) self).

Lemma obeys_ret {A} (a : A) : obeys (ret a).
Proof. apply follows_ret. apply only_expected_nil. Qed.

Lemma obeys_bind {A B} (m : Meth A) (k : A -> Meth B) :
  obeys m -> (forall a, obeys (k a)) -> obeys (bind m k).
Proof. apply follows_bind. apply only_expected_seq. Qed.

Lemma obeys_perform (e : effect) : expected self e -> obeys (lift (perform e)).
Proof. apply follows_perform; auto with shapes. apply only_expected_seq. Qed.

Lemma obeys_tick afk : obeys (tick env afk).
Proof. apply follows_tick; auto with shapes. apply only_expected_seq. Qed.

Lemma obeys_try_except {A} (body handler : Meth A) (catches : exn -> bool) :
  obeys body -> obeys handler -> obeys (try_except body catches handler).
Proof.
  intros Hb Hh w. destruct (Hb w) as (r & w1 & l1 & Eb & Et & HP).
  unfold try_except. rewrite Eb.
  assert (Hsame : exists r' w' new,
             (r, (self, w1)) = (r', (self, w'))
             /\ trace w' = trace w ++ new
             /\ only_expected self (sigint w) new (kind_of r') (sigint w'))
    by (exists r, w1, l1; auto).
  destruct r as [a|e|]; try exact Hsame.
  destruct (catches e); try exact Hsame.
  destruct (Hh w1) as (r2 & w2 & l2 & Eh & Et2 & HP2).
  exists r2, w2, (l1 ++ l2). split; [exact Eh|]. split.
  - rewrite Et2, Et, app_assoc. reflexivity.
  - apply Forall_app. split; assumption.
Qed.

Lemma obeys_with_block {A} (enter leave : Meth unit) (body : Meth A) :
  obeys enter -> obeys body -> obeys leave ->
  obeys (with_block enter body leave).
Proof.
  intros He Hb Hl. unfold with_block.
  apply obeys_bind; [exact He|]. intros ? w.
  destruct (Hb w) as (r & w1 & l1 & Eb & Et & HP). rewrite Eb.
  destruct (Hl w1) as (r2 & w2 & l2 & El & Et2 & HP2).
  assert (Hboth : trace w2 = trace w ++ (l1 ++ l2))
    by (rewrite Et2, Et, app_assoc; reflexivity).
  assert (HPboth : Forall (fun e => e = Sigint \/ expected self e) (l1 ++ l2))
    by (apply Forall_app; split; assumption).
  destruct r as [a0|e|].
  - rewrite El. destruct r2 as [[]|e2|];
      [exists (Ret a0) | exists (Raise e2) | exists Fuel];
      exists w2, (l1 ++ l2); auto.
  - rewrite El. destruct r2 as [[]|e2|];
      [exists (Raise e) | exists (Raise e2) | exists Fuel];
      exists w2, (l1 ++ l2); auto.
  - exists Fuel, w1, l1. auto.
Qed.

Lemma obeys_loop_body afk : obeys (loop_body env afk).
Proof.
  unfold loop_body. apply obeys_try_except.
  - apply obeys_tick.
  - apply obeys_bind; [|intros ?].
    + apply obeys_perform. constructor.
    + apply obeys_ret.
Qed.

Lemma obeys_heartbeat_loop_from fuel :
  forall afk, obeys (heartbeat_loop_from env fuel afk).
Proof.
  induction fuel as [|fuel IH]; intros afk.
  - intros w. exists Fuel, w, []. rewrite app_nil_r. repeat split. constructor.
  - simpl. apply obeys_bind; [apply obeys_loop_body|].
    intros [|afk'].
    + apply obeys_ret.
    + apply IH.
Qed.

Lemma obeys_run fuel : obeys (run env fuel).
Proof.
  unfold run, logger_info, client_wait_for_start, client_create_bucket,
    client_enter, client_exit.
  apply follows_self.
  do 3 (apply obeys_bind; [apply obeys_perform; constructor | intros ?]).
  apply obeys_with_block.
  - apply obeys_perform. constructor.
  - apply obeys_heartbeat_loop_from.
  - apply obeys_perform. constructor.
Qed.

End OnlyExpected.

(** C6.  Whatever the loop meets (any fuel, any value of the flag, any
    world, interrupted or not), it leaves the fields of the watcher, its
    Settings among them, as they were, and every heartbeat it sends carries
    the pulsetime [timeout + poll_time] of these Settings. *)
Theorem C6_pulsetime_invariant (env : Env) (fuel : nat) (afk : bool)
    (self : AFKWatcher) (w : World) :
  exists r w',
    heartbeat_loop_from env fuel afk (self, w) = (r, (self, w'))
    /\ forall bucket_id e pulsetime queued,
         In (Heartbeat bucket_id e pulsetime queued) (since w w') ->
         pulsetime = (timeout (settings self) + poll_time (settings self))%Q.
Proof.
  destruct (obeys_heartbeat_loop_from env self fuel afk w)
    as (r & w' & new & E & Et & HP).
  exists r, w'. split; [exact E|].
  intros b e p q Hin. rewrite (since_app _ _ _ Et) in Hin.
  unfold only_expected in HP. rewrite List.Forall_forall in HP.
  destruct (HP _ Hin) as [Hs | He]; [discriminate Hs|].
  inversion He; subst. reflexivity.
Qed.

(** ** The bucket identity *)

Lemma bind_inv {St A B} (m : M St A) (k : A -> M St B) s b s' :
  bind m k s = (Ret b, s') ->
  exists a s1, m s = (Ret a, s1) /\ k a s1 = (Ret b, s').
Proof.
  unfold bind. destruct (m s) as [[a|e|] s1]; intros H; try discriminate H.
  exists a, s1. auto.
Qed.

Lemma AFKWatcher_init_bucketname env args testing w watcher w1 :
  AFKWatcher_init env args testing w = (Ret watcher, w1) ->
  exists username,
    get_logged_in_user env w = (Ret username, w1)
    /\ bucketname watcher = username +:+ "-afk_" +:+ hostname env.
Proof.
  unfold AFKWatcher_init. intros H.
  apply bind_inv in H as (cfg & s1 & E1 & H).
  injection E1 as Hcfg Hs1. subst cfg s1.
  apply bind_inv in H as (st & s2 & E2 & H).
  pose proof (Settings_init_state (config env testing) (arg_timeout args)
                (arg_poll_time args) w) as Hs.
  rewrite E2 in Hs. simpl in Hs. subst s2.
  apply bind_inv in H as (username & s3 & E3 & H).
  apply bind_inv in H as (cl & s4 & E4 & H).
  injection E4 as Hcl Hs4. subst cl s4.
  injection H as Hwatcher Hw1. subst watcher w1.
  exists username. split; [exact E3 | reflexivity].
Qed.

(** C7.  The watcher that construction returns has as bucket name the user
    [get_logged_in_user] resolved, then [-afk_], then the host name the
    store client reports; and [run], from any world and however it ends,
    leaves the fields of the watcher (the bucket name among them) as they
    were, and names that bucket in every [create_bucket] and [heartbeat]
    call it makes. *)
Theorem C7_bucket_identity (env : Env) (args : Args) (testing : bool)
    (w w1 : World) (watcher : AFKWatcher) (fuel : nat) (w2 : World) :
  AFKWatcher_init env args testing w = (Ret watcher, w1) ->
  (exists username,
     get_logged_in_user env w = (Ret username, w1)
     /\ bucketname watcher = username +:+ "-afk_" +:+ hostname env)
  /\ exists r w3,
       run env fuel (watcher, w2) = (r, (watcher, w3))
       /\ (forall bucket_id event_type queued,
             In (CreateBucket bucket_id event_type queued) (since w2 w3) ->
             bucket_id = bucketname watcher)
       /\ (forall bucket_id e pulsetime queued,
             In (Heartbeat bucket_id e pulsetime queued) (since w2 w3) ->
             bucket_id = bucketname watcher).
Proof.
  intros Hinit. split; [exact (AFKWatcher_init_bucketname _ _ _ _ _ _ Hinit)|].
  destruct (obeys_run env watcher fuel w2) as (r & w3 & new & E & Et & HP).
  exists r, w3. split; [exact E|].
  rewrite (since_app _ _ _ Et).
  unfold only_expected in HP. rewrite List.Forall_forall in HP.
  split.
  - intros b t q Hin. destruct (HP _ Hin) as [Hs | He]; [discriminate Hs|].
    inversion He; subst. reflexivity.
  - intros b e p q Hin. destruct (HP _ Hin) as [Hs | He]; [discriminate Hs|].
    inversion He; subst. reflexivity.
Qed.

Lemma C7_bucket_identity_witness :
  (exists username,
     get_logged_in_user desktop (at_tick 0)
       = (Ret username,
          mkWorld 0 None [Run ListSeat0; Run (ShowSessionName "2")])
     /\ bucketname alice_watcher = username +:+ "-afk_" +:+ "box")
  /\ exists r w3,
       run desktop 5 (alice_watcher, at_tick 0) = (r, (alice_watcher, w3))
       /\ (forall bucket_id event_type queued,
             In (CreateBucket bucket_id event_type queued)
               (since (at_tick 0) w3) ->
             bucket_id = "alice-afk_box")
       /\ (forall bucket_id e pulsetime queued,
             In (Heartbeat bucket_id e pulsetime queued)
               (since (at_tick 0) w3) ->
             bucket_id = "alice-afk_box").
Proof.
  apply (C7_bucket_identity desktop no_args false (at_tick 0)
           (mkWorld 0 None [Run ListSeat0; Run (ShowSessionName "2")])
           alice_watcher 5 (at_tick 0)).
  reflexivity.
Defined.

(** ** Interrupts and the death of the parent *)

Lemma interrupt_last_nil sg : interrupt_last sg [] Normal sg.
Proof. intros []. Qed.

Lemma interrupt_last_seq sg l1 sg1 l2 k sg2 :
  interrupt_last sg l1 Normal sg1 -> interrupt_last sg1 l2 k sg2 ->
  interrupt_last sg (l1 ++ l2) k sg2.
Proof.
  unfold interrupt_last. intros H1 H2. destruct k as [|[]|]; try contradiction.
  - intros Hin. apply in_app_or in Hin. tauto.
  - destruct H2 as (Hsg & pre & Epre & Hpre). split; [exact Hsg|].
    exists (l1 ++ pre). split.
    + rewrite Epre, app_assoc. reflexivity.
    + intros Hin. apply in_app_or in Hin. tauto.
Qed.

Lemma interrupt_last_pass n : interrupt_last (Some (S n)) [] Normal (Some n).
Proof. intros []. Qed.

Lemma interrupt_last_sigint :
  interrupt_last (Some O) [Sigint] (Raised KeyboardInterrupt) None.
Proof. split; [reflexivity|]. exists []. split; [reflexivity | intros []]. Qed.

Lemma interrupt_last_emit self sg e :
  expected self e -> interrupt_last sg [e] Normal sg.
Proof. intros He [Hs|[]]. subst e. inversion He. Qed.

Lemma tick_interrupt_last env self afk :
  follows interrupt_last self (tick env afk).
Proof.
  apply follows_tick.
  - apply interrupt_last_nil.
  - apply interrupt_last_seq.
  - apply interrupt_last_pass.
  - apply interrupt_last_sigint.
  - apply interrupt_last_emit.
Qed.

(** The handler of [except KeyboardInterrupt], the interrupt delivered. *)
Lemma handler_after_interrupt self w :
  sigint w = None ->
  (lift (logger_info "aw-watcher-afk stopped by keyboard interrupt") ;;
   ret Break) (self, w)
  = (Ret Break,
     (self,
      mkWorld (tick_no w) None
        (trace w ++
         [Log INFO "aw-watcher-afk stopped by keyboard interrupt"]))).
Proof. destruct w as [t sg tr]. simpl. intros ->. reflexivity. Qed.

Lemma loop_interrupted env fuel afk self w :
  fst (tick env afk (self, w)) = Raise KeyboardInterrupt ->
  exists w' before,
    heartbeat_loop_from env (S fuel) afk (self, w) = (Ret tt, (self, w'))
    /\ since w w'
       = before ++
         [Sigint; Log INFO "aw-watcher-afk stopped by keyboard interrupt"]
    /\ ~ In Sigint before.
Proof.
  intros Hr.
  destruct (tick_interrupt_last env self afk w) as (r & w1 & new & E & Et & HP).
  rewrite E in Hr. simpl in Hr. subst r. simpl in HP.
  destruct HP as (Hsg & pre & Epre & Hpre).
  eexists _, pre. split; [|split; [|exact Hpre]].
  - apply loop_break. unfold loop_body, try_except. rewrite E. simpl.
    apply (handler_after_interrupt self w1 Hsg).
  - apply since_app. simpl. rewrite Et, Epre, <- !app_assoc. reflexivity.
Qed.

Lemma bind_raise {St A B} (m : M St A) (k : A -> M St B) s e s' :
  m s = (Raise e, s') -> bind m k s = (Raise e, s').
Proof. intros H. unfold bind. rewrite H. reflexivity. Qed.

Lemma loop_parent_died env fuel afk self w :
  parent_died env w ->
  exists w',
    heartbeat_loop_from env (S fuel) afk (self, w) = (Ret tt, (self, w'))
    /\ store_calls (since w w') = [].
Proof.
  intros [Hsys Hppid]. apply Z.eqb_eq in Hppid.
  destruct w as [t sg tr]. cbv [tick_no] in Hppid.
  destruct sg as [[|[|k]]|]; eexists;
    (split;
     [ apply loop_break; unfold loop_body, try_except, tick; step;
       rewrite Hsys;
       first
         [ erewrite bind_raise by reflexivity; reflexivity
         | step; rewrite Hppid; cbv beta iota;
           first
             [ erewrite bind_raise by reflexivity; reflexivity
             | repeat step; reflexivity ] ]
     | erewrite since_app
         by (cbv beta iota zeta delta [fst snd tick_no sigint trace];
             rewrite <- ?app_assoc; reflexivity);
       reflexivity ]).
Qed.

(** Run a tick up to the operation the interrupt is delivered at. *)
Ltac cut_short :=
  repeat first [ erewrite bind_raise by reflexivity; reflexivity | step ].

(** An interrupt due within the next five operations is delivered during
    the tick: a tick whose parent is alive has at least five. *)
Lemma interrupt_due_cuts_tick env afk self w k :
  sigint w = Some k -> (k < 5)%nat -> ~ parent_died env w ->
  fst (tick env afk (self, w)) = Raise KeyboardInterrupt.
Proof.
  intros Hk Hlt Hp. apply alive_check in Hp.
  destruct w as [t sg tr]. cbv [sigint tick_no] in *. subst sg.
  destruct (Qltb (idle (samples env t)) (timeout (settings self))) eqn:Hcmp;
    pose proof (Qgeb_negb_Qltb (idle (samples env t))
                  (timeout (settings self))) as Hge;
    rewrite Hcmp in Hge; cbv [negb] in Hge;
    destruct afk;
    (destruct k as [|[|[|[|[|k]]]]]; [| | | | |exfalso; lia]);
    destruct (posix (system env)) eqn:Hsys;
    unfold tick; step; rewrite Hsys; cut_short; try rewrite Hp;
    cbv beta iota; cut_short; rewrite ?Hcmp, ?Hge;
    cbv beta iota delta [andb negb]; rewrite ?Hcmp, ?Hge;
    cbv beta iota delta [andb negb]; cut_short.
Qed.

(** C8.  When the parent-death condition holds on the sample a tick starts
    with, or a keyboard interrupt is delivered during the tick, the loop
    returns (any fuel beyond this tick, no exception, the watcher as it
    was).  In the first case the tick makes no store call at all; in the
    second nothing follows the interrupt but the log line of the handler,
    so no store call does. *)
Theorem C8_graceful_shutdown (env : Env) (fuel : nat) (afk : bool)
    (self : AFKWatcher) (w : World) :
  parent_died env w
  \/ fst (tick env afk (self, w)) = Raise KeyboardInterrupt ->
  exists w',
    heartbeat_loop_from env (S fuel) afk (self, w) = (Ret tt, (self, w'))
    /\ (parent_died env w -> store_calls (since w w') = [])
    /\ (fst (tick env afk (self, w)) = Raise KeyboardInterrupt ->
        exists before,
          since w w'
          = before ++
            [Sigint; Log INFO "aw-watcher-afk stopped by keyboard interrupt"]
          /\ ~ In Sigint before).
Proof.
  intros H.
  assert (Hret : exists w',
             heartbeat_loop_from env (S fuel) afk (self, w)
             = (Ret tt, (self, w'))).
  { destruct H as [Hd | Hi].
    - destruct (loop_parent_died env fuel afk self w Hd) as (w' & E & _).
      exists w'. exact E.
    - destruct (loop_interrupted env fuel afk self w Hi) as (w' & _ & E & _).
      exists w'. exact E. }
  destruct Hret as (w' & E). exists w'. split; [exact E|]. split.
  - intros Hd.
    destruct (loop_parent_died env fuel afk self w Hd) as (w'' & E' & Hc).
    rewrite E in E'. injection E' as <-. exact Hc.
  - intros Hi.
    destruct (loop_interrupted env fuel afk self w Hi)
      as (w'' & before & E' & Hs & Hn).
    rewrite E in E'. injection E' as <-. exists before. auto.
Qed.

Lemma C8_graceful_shutdown_witness :
  (exists w',
     heartbeat_loop_from orphaned 1 false (alice_watcher, at_tick 0)
       = (Ret tt, (alice_watcher, w'))
     /\ store_calls (since (at_tick 0) w') = [])
  /\ (exists w' before,
        heartbeat_loop_from desktop 1 false
          (alice_watcher, mkWorld 2 (Some 6%nat) [])
          = (Ret tt, (alice_watcher, w'))
        /\ since (mkWorld 2 (Some 6%nat) []) w'
           = before ++
             [Sigint; Log INFO "aw-watcher-afk stopped by keyboard interrupt"]
        /\ ~ In Sigint before).
Proof.
  split.
  - destruct (C8_graceful_shutdown orphaned 0 false alice_watcher (at_tick 0))
      as (w' & E & Hd & _).
    + left. split; reflexivity.
    + exists w'. split; [exact E|]. apply Hd. split; reflexivity.
  - destruct (C8_graceful_shutdown desktop 0 false alice_watcher
                (mkWorld 2 (Some 6%nat) []))
      as (w' & E & _ & Hi).
    + right. reflexivity.
    + destruct Hi as (before & Hs & Hn); [reflexivity|].
      exists w', before. auto.
Defined.

(** ** The flag after a tick *)

Lemma lift_inv {A} (m : W A) self w r s' :
  lift m (self, w) = (r, s') -> exists w', s' = (self, w') /\ m w = (r, w').
Proof.
  unfold lift. simpl. destruct (m w) as [r0 w0]. intros H.
  injection H as <- <-. exists w0. auto.
Qed.

Lemma checkpoint_inv w u w' :
  checkpoint w = (Ret u, w') -> tick_no w' = tick_no w.
Proof.
  unfold checkpoint. destruct (sigint w) as [[|n]|]; intros H;
    inversion H; reflexivity.
Qed.

Lemma observe_inv {A} (f : World -> A) w a w' :
  observe f w = (Ret a, w') -> a = f w' /\ tick_no w' = tick_no w.
Proof.
  unfold observe. intros H. apply bind_inv in H as (u & w1 & E & H).
  injection H as <- <-. split; [reflexivity | exact (checkpoint_inv _ _ _ E)].
Qed.

Lemma perform_inv e w u w' :
  perform e w = (Ret u, w') -> tick_no w' = tick_no w.
Proof.
  unfold perform. intros H. apply bind_inv in H as (u1 & w1 & E & H).
  apply checkpoint_inv in E. unfold emit in H. injection H as _ <-.
  exact E.
Qed.

Lemma ping_inv afk ts d self w u s' :
  ping afk ts d (self, w) = (Ret u, s') ->
  exists w', s' = (self, w') /\ tick_no w' = tick_no w.
Proof.
  unfold ping, client_heartbeat. intros H.
  apply bind_inv in H as (o & s1 & E & H). injection E as <- <-.
  apply lift_inv in H as (w' & -> & H). apply perform_inv in H.
  exists w'. auto.
Qed.

(** Invert the next operation of a sequence that returned. *)
Ltac inv_lift H :=
  let w' := fresh "w" in
  let E := fresh "E" in
  apply bind_inv in H as (? & ? & E & H);
  first
    [ apply ping_inv in E as (w' & -> & E)
    | apply lift_inv in E as (w' & -> & E);
      first [ apply observe_inv in E as [-> E]
            | apply perform_inv in E ] ].

(** C9.  When a tick completes, the flag the loop carries into the next
    tick is true exactly when the idle time read in this tick is at least
    the timeout; and it differs from the flag on entry only when the
    condition of one of the two transition branches held. *)
Theorem C9_flag_invariant (env : Env) (fuel : nat) (afk : bool)
    (self : AFKWatcher) (w : World) (afk' : bool) (s' : AFKWatcher * World) :
  tick env afk (self, w) = (Ret (Continue afk'), s') ->
  let seconds_since_input := idle (samples env (tick_no w)) in
  heartbeat_loop_from env (S fuel) afk (self, w)
    = heartbeat_loop_from env fuel afk' s'
  /\ (afk' = true <-> (timeout (settings self) <= seconds_since_input)%Q)
  /\ (afk' <> afk ->
      afk = true /\ (seconds_since_input < timeout (settings self))%Q
      \/ afk = false /\ (timeout (settings self) <= seconds_since_input)%Q).
Proof.
  intros H ssi. split; [exact (loop_continue _ _ _ _ _ _ H)|].
  unfold tick, logger_info, logger_debug_seconds, os_getppid, datetime_now,
    seconds_since_last_input in H.
  apply bind_inv in H as (o & s1 & E & H). injection E as <- <-.
  apply bind_inv in H as (died & s1 & E & H).
  assert (Hs1 : exists w1, s1 = (self, w1) /\ tick_no w1 = tick_no w).
  { destruct (posix (system env)).
    - inv_lift E. injection E as _ <-. eauto.
    - injection E as _ <-. eauto. }
  destruct Hs1 as (w1 & -> & T1). clear E.
  destruct died.
  { inv_lift H. discriminate H. }
  do 3 inv_lift H.
  assert (T2 : tick_no w2 = tick_no w) by congruence.
  rewrite T2 in H. fold ssi in H.
  apply bind_inv in H as (flag & s2 & Eb & H).
  apply bind_inv in H as (u & s3 & _ & H). injection H as -> _.
  pose proof (Qgeb_negb_Qltb ssi (timeout (settings self))) as Hneg.
  destruct afk, (Qltb ssi (timeout (settings self))) eqn:Hlt;
    rewrite Hneg in Eb; cbv beta iota delta [andb negb] in Eb;
    repeat (apply bind_inv in Eb as (? & ? & _ & Eb));
    injection Eb as <- _;
    (split; [rewrite <- Qgeb_le, Hneg; simpl; intuition congruence|]);
    intros Hne; try congruence.
  - left. split; [reflexivity | apply Qltb_lt; exact Hlt].
  - right. split; [reflexivity | apply Qltb_false_le; exact Hlt].
Qed.

Lemma C9_flag_invariant_witness :
  (true = true <-> (10 <= 10)%Q)
  /\ (true <> false ->
      false = true /\ (10 < 10)%Q \/ false = false /\ (10 <= 10)%Q).
Proof.
  apply (C9_flag_invariant desktop 0 false alice_watcher (at_tick 2) true
           (snd (tick desktop false (alice_watcher, at_tick 2)))).
  reflexivity.
Defined.

(** * Further properties *)

(** ** Detecting an SSH session *)

Lemma nonempty_true (s : string) : nonempty s = true <-> s <> "".
Proof. destruct s; simpl; split; congruence. Qed.

(** X1.  [running_over_ssh] holds exactly when SSH_CLIENT or SSH_TTY is set
    to a non-empty value: an unset or empty variable never makes the program
    take a desktop for an SSH session. *)
Theorem running_over_ssh_iff (env : Env) :
  running_over_ssh env = true
  <-> (exists v, environ env !! "SSH_CLIENT" = Some v /\ v <> "")
      \/ (exists v, environ env !! "SSH_TTY" = Some v /\ v <> "").
Proof.
  split; [|apply running_over_ssh_true].
  unfold running_over_ssh.
  destruct (environ env !! "SSH_CLIENT") as [a|] eqn:Ea; simpl.
  - destruct (nonempty a) eqn:Na; simpl.
    + intros _. left. exists a. split; [reflexivity | apply nonempty_true, Na].
    + destruct (environ env !! "SSH_TTY") as [b|]; simpl; [|discriminate].
      intros Nb. right. exists b. split; [reflexivity | apply nonempty_true, Nb].
  - destruct (environ env !! "SSH_TTY") as [b|]; simpl; [|discriminate].
    intros Nb. right. exists b. split; [reflexivity | apply nonempty_true, Nb].
Qed.

(** ** The first local user of [who] *)

(** X2.  A user taken from the output of [who] comes from a line with at
    least two columns whose terminal does not start with [pts/], and every
    line before it was passed over. *)
Theorem first_local_user_sound (lines : list string) (user : string) :
  first_local_user lines = Some user ->
  exists before line after tty rest,
    lines = before ++ line :: after
    /\ split line = user :: tty :: rest
    /\ startswith tty "pts/" = false
    /\ first_local_user before = None.
Proof.
  induction lines as [|line lines IH]; simpl; [discriminate|].
  intros H.
  assert (Hrec : first_local_user lines = Some user ->
                 first_local_user [line] = None ->
                 exists before line0 after tty rest,
                   line :: lines = before ++ line0 :: after
                   /\ split line0 = user :: tty :: rest
                   /\ startswith tty "pts/" = false
                   /\ first_local_user before = None).
  { intros Hl Hone. destruct (IH Hl) as (b & l0 & a & tty & rest & E & Hs & Hp & Hb).
    exists (line :: b), l0, a, tty, rest. subst lines. repeat split; try assumption.
    simpl in *. destruct (split line) as [|c0 [|c1 cs]]; try exact Hb.
    destruct (negb (startswith c1 "pts/")); [discriminate Hone | exact Hb]. }
  destruct (split line) as [|c0 [|c1 cs]] eqn:Es;
    try (apply Hrec; [exact H | simpl; rewrite Es; reflexivity]).
  destruct (startswith c1 "pts/") eqn:Ep; simpl in H.
  - apply Hrec; [exact H | simpl; rewrite Es, Ep; reflexivity].
  - injection H as <-. exists [], line, lines, c1, cs. auto.
Qed.

Lemma first_local_user_sound_witness :
  exists before line after tty rest,
    ["bob pts/0 2024-05-01"; "alice tty2 2024-05-01"] = before ++ line :: after
    /\ split line = "alice" :: tty :: rest
    /\ startswith tty "pts/" = false
    /\ first_local_user before = None.
Proof.
  apply (first_local_user_sound
           ["bob pts/0 2024-05-01"; "alice tty2 2024-05-01"] "alice").
  reflexivity.
Defined.

(** X3.  [who] yields no user exactly when every line has fewer than two
    columns or a terminal that starts with [pts/]. *)
Theorem first_local_user_none_iff (lines : list string) :
  first_local_user lines = None
  <-> forall line, In line lines ->
        match split line with
        | _ :: tty :: _ => startswith tty "pts/" = true
        | _ => True
        end.
Proof.
  induction lines as [|line lines IH]; simpl.
  - split; [intros _ l [] | reflexivity].
  - destruct (split line) as [|c0 [|c1 cs]] eqn:Es.
    + rewrite IH. split.
      * intros H l [<-|Hl]; [rewrite Es; exact I | exact (H l Hl)].
      * intros H l Hl. apply H. right. exact Hl.
    + rewrite IH. split.
      * intros H l [<-|Hl]; [rewrite Es; exact I | exact (H l Hl)].
      * intros H l Hl. apply H. right. exact Hl.
    + destruct (startswith c1 "pts/") eqn:Ep; simpl.
      * rewrite IH. split.
        -- intros H l [<-|Hl]; [rewrite Es; exact Ep | exact (H l Hl)].
        -- intros H l Hl. apply H. right. exact Hl.
      * split; [discriminate|]. intros H.
        specialize (H line (or_introl eq_refl)). rewrite Es in H. congruence.
Qed.

(** ** Settings and the configuration mapping *)

(** X4.  Overrides that are both non-zero make the configuration
    unnecessary: whatever the mapping holds (nothing at all, too),
    resolution returns the two overrides when the timeout is at least the
    poll time. *)
Theorem Settings_overrides_suffice {St : Type} (config_section : gmap string Q)
    (t p : Q) (s : St) :
  ~ (t == 0)%Q -> ~ (p == 0)%Q -> (p <= t)%Q ->
  Settings_init config_section (Some t) (Some p) s = (Ret (mkSettings t p), s).
Proof.
  intros Ht Hp Hle. apply truthy_nonzero in Ht, Hp. apply Qgeb_le in Hle.
  unfold Settings_init, bind, of_result, or_getitem, ret.
  rewrite Ht, Hp, Hle. reflexivity.
Qed.

Lemma Settings_overrides_suffice_witness :
  Settings_init (∅ : gmap string Q) (Some 60%Q) (Some 2%Q) tt
  = (Ret (mkSettings 60 2), tt).
Proof.
  apply (Settings_overrides_suffice ∅ 60 2 tt); [discriminate | discriminate |].
  intros H. discriminate H.
Defined.

(** X5.  Without a usable timeout override (none, or zero) a mapping
    without the key [timeout] makes resolution fail with [KeyError] on that
    key, whatever is said about the poll time; with the timeout resolved,
    the same holds for the key [poll_time]. *)
Theorem Settings_missing_key {St : Type} (config_section : gmap string Q)
    (timeout_override poll_time_override : option Q) (s : St) :
  (match timeout_override with Some v => (v == 0)%Q | None => True end ->
   config_section !! "timeout" = None ->
   Settings_init config_section timeout_override poll_time_override s
   = (Raise (KeyError "timeout"), s))
  /\ (forall t,
        or_getitem timeout_override config_section "timeout" = Ret t ->
        match poll_time_override with Some v => (v == 0)%Q | None => True end ->
        config_section !! "poll_time" = None ->
        Settings_init config_section timeout_override poll_time_override s
        = (Raise (KeyError "poll_time"), s)).
Proof.
  assert (Hmiss : forall (o : option Q) key,
             match o with Some v => (v == 0)%Q | None => True end ->
             config_section !! key = None ->
             or_getitem o config_section key = Raise (KeyError key)).
  { intros o key Ho Hk. unfold or_getitem, getitem. rewrite Hk.
    destruct o as [v|]; [|reflexivity].
    destruct (truthy v) eqn:Ev; [|reflexivity].
    apply truthy_nonzero in Ev. contradiction. }
  split.
  - intros Ho Hk. unfold Settings_init, bind, of_result.
    rewrite (Hmiss _ _ Ho Hk). reflexivity.
  - intros t Ht Ho Hk. unfold Settings_init, bind, of_result.
    rewrite Ht, (Hmiss _ _ Ho Hk). reflexivity.
Qed.

Lemma Settings_missing_key_witness :
  Settings_init (∅ : gmap string Q) (Some 0%Q) (Some 5%Q) tt
  = (Raise (KeyError "timeout"), tt)
  /\ Settings_init ({[ "timeout" := 10%Q ]} : gmap string Q) None None tt
     = (Raise (KeyError "poll_time"), tt).
Proof.
  split.
  - apply (proj1 (Settings_missing_key ∅ (Some 0%Q) (Some 5%Q) tt));
      reflexivity.
  - apply (proj2 (Settings_missing_key {[ "timeout" := 10%Q ]} None None tt)
             10%Q); reflexivity.
Defined.

(** ** The logged-in user *)

(** Split on the next answer of the environment that decides how
    [get_logged_in_user] goes on. *)
Ltac user_split :=
  match goal with
  | |- context [shell ?env ?c] => destruct (shell env c) eqn:?
  | |- context [nonempty ?s] => destruct (nonempty s) eqn:?
  | |- context [first_local_user ?l] => destruct (first_local_user l) eqn:?
  | |- context [getuser ?env] => destruct (getuser env) eqn:?
  end.

Ltac user_run :=
  cbv beta iota zeta delta
    [get_logged_in_user check_output getpass_getuser logger_error perform
     checkpoint emit bind ret raise try_except is_Exception fst snd sigint
     tick_no trace].

(** X6.  [get_logged_in_user] lets no exception of its helpers escape: it
    returns a user unless a keyboard interrupt is delivered while it runs,
    and with no interrupt pending it returns and leaves none pending. *)
Theorem get_logged_in_user_never_fails (env : Env) (w : World) :
  match get_logged_in_user env w with
  | (Ret _, w') => sigint w = None -> sigint w' = None
  | (Raise e, _) => e = KeyboardInterrupt /\ sigint w <> None
  | (Fuel, _) => False
  end.
Proof.
  destruct w as [t sg tr].
  destruct sg as [[|[|[|[|[|k]]]]]|];
    user_run; repeat (user_split; user_run);
    try (split; [reflexivity | discriminate]); try discriminate; reflexivity.
Qed.



(** X8.  When the session manager fails or names no session on seat0, the
    user is the first local user of [who], and the process owner is not
    asked. *)
Theorem get_logged_in_user_who (env : Env) (w : World)
    (listing user : string) :
  sigint w = None ->
  match shell env ListSeat0 with
  | Some sessions => strip sessions = ""
  | None => True
  end ->
  shell env Who = Some listing ->
  first_local_user (splitlines listing) = Some user ->
  get_logged_in_user env w
  = (Ret user,
     mkWorld (tick_no w) None (trace w ++ [Run ListSeat0; Run Who])).
Proof.
  intros Hq Hs Hw Hu.
  destruct w as [t sg tr]. simpl in Hq. subst sg.
  user_run. destruct (shell env ListSeat0) as [sessions|].
  - rewrite Hs. cbv [nonempty]. user_run. rewrite Hw. user_run. rewrite Hu.
    user_run. rewrite <- app_assoc. reflexivity.
  - user_run. rewrite Hw. user_run. rewrite Hu.
    user_run. rewrite <- app_assoc. reflexivity.
Qed.

Lemma get_logged_in_user_who_witness :
  get_logged_in_user two_sessions (at_tick 0)
  = (Ret "alice", mkWorld 0 None [Run ListSeat0; Run Who]).
Proof.
  apply (get_logged_in_user_who two_sessions (at_tick 0)
           "bob pts/0 2024-05-01 10:00
alice tty2 2024-05-01 09:00
" "alice");
    reflexivity.
Defined.



(** ** Rules for [emits_only] *)

Section Emits.
Context {St : Type}.
Variable world_of : St -> World.
Variable allowed : effect -> Prop.

Lemma emits_weaken {A} (stricter : effect -> Prop) (m : M St A) :
  (forall e, stricter e -> allowed e) ->
  emits_only world_of stricter m -> emits_only world_of allowed m.
Proof.
  intros Himp Hm s. destruct (Hm s) as (new & E & F). exists new.
  split; [exact E|]. eapply Forall_impl; [exact F | exact Himp].
Qed.

Lemma emits_ret {A} (a : A) : emits_only world_of allowed (ret a).
Proof. intros s. exists []. rewrite app_nil_r. split; [reflexivity | constructor]. Qed.

Lemma emits_of_result {A} (r : result A) :
  emits_only world_of allowed (of_result r).
Proof. intros s. exists []. rewrite app_nil_r. split; [reflexivity | constructor]. Qed.

Lemma emits_raise {A} (e : exn) :
  emits_only world_of allowed (raise e : M St A).
Proof. intros s. exists []. rewrite app_nil_r. split; [reflexivity | constructor]. Qed.

Lemma emits_then {A} (m : M St A) (next : result A -> St -> St) :
  emits_only world_of allowed m ->
  (forall r s, exists new,
      trace (world_of (next r s)) = trace (world_of s) ++ new
      /\ Forall allowed new) ->
  forall s, exists new,
    trace (world_of (next (fst (m s)) (snd (m s))))
    = trace (world_of s) ++ new
    /\ Forall allowed new.
Proof.
  intros Hm Hn s. destruct (Hm s) as (l1 & E1 & F1).
  destruct (Hn (fst (m s)) (snd (m s))) as (l2 & E2 & F2).
  exists (l1 ++ l2). split.
  - rewrite E2, E1, app_assoc. reflexivity.
  - apply Forall_app. split; assumption.
Qed.

Lemma emits_bind {A B} (m : M St A) (k : A -> M St B) :
  emits_only world_of allowed m ->
  (forall a, emits_only world_of allowed (k a)) ->
  emits_only world_of allowed (bind m k).
Proof.
  intros Hm Hk s.
  destruct (emits_then m
              (fun r s1 => match r with Ret a => snd (k a s1) | _ => s1 end)
              Hm) with (s := s) as (new & E & F).
  { intros [a| |] s1; [apply Hk | |];
      (exists []; rewrite app_nil_r; split; [reflexivity | constructor]). }
  exists new. split; [|exact F]. unfold bind.
  destruct (m s) as [[a| |] s1]; exact E.
Qed.

Lemma emits_if {A} (b : bool) (m1 m2 : M St A) :
  emits_only world_of allowed m1 -> emits_only world_of allowed m2 ->
  emits_only world_of allowed (if b then m1 else m2).
Proof. destruct b; auto. Qed.

Lemma emits_try_except {A} (body handler : M St A) (catches : exn -> bool) :
  emits_only world_of allowed body -> emits_only world_of allowed handler ->
  emits_only world_of allowed (try_except body catches handler).
Proof.
  intros Hb Hh s.
  destruct (emits_then body
              (fun r s1 =>
                 match r with
                 | Raise e => if catches e then snd (handler s1) else s1
                 | _ => s1
                 end) Hb) with (s := s) as (new & E & F).
  { intros [a|e|] s1; try destruct (catches e); try apply Hh;
      (exists []; rewrite app_nil_r; split; [reflexivity | constructor]). }
  exists new. split; [|exact F]. unfold try_except.
  destruct (body s) as [[a|e|] s1]; simpl in E; try exact E.
  destruct (catches e); exact E.
Qed.

Lemma emits_with_block {A} (enter leave : M St unit) (body : M St A) :
  emits_only world_of allowed enter -> emits_only world_of allowed body ->
  emits_only world_of allowed leave ->
  emits_only world_of allowed (with_block enter body leave).
Proof.
  intros He Hb Hl. unfold with_block. apply emits_bind; [exact He|].
  intros ? s.
  destruct (emits_then body
              (fun r s1 => match r with Fuel => s1 | _ => snd (leave s1) end)
              Hb) with (s := s) as (new & E & F).
  { intros [x|e|] s1; try apply Hl.
    exists []. rewrite app_nil_r. split; [reflexivity | constructor]. }
  exists new. split; [|exact F].
  destruct (body s) as [[a0|e|] s1]; simpl in E; try exact E;
    destruct (leave s1) as [[u|e'|] s2]; exact E.
Qed.

End Emits.

Section EmitsWorld.
Variable allowed : effect -> Prop.
Hypothesis allowed_Sigint : allowed Sigint.

Notation "'emits'" := (emits_only (fun w : World => w) allowed).

Lemma emits_checkpoint : emits checkpoint.
Proof.
  intros [t [[|n]|] tr]; cbv [checkpoint fst snd sigint tick_no trace].
  - exists [Sigint]. split; [reflexivity | repeat constructor; exact allowed_Sigint].
  - exists []. rewrite app_nil_r. split; [reflexivity | constructor].
  - exists []. rewrite app_nil_r. split; [reflexivity | constructor].
Qed.

Lemma emits_perform (e : effect) : allowed e -> emits (perform e).
Proof.
  intros He. unfold perform. apply emits_bind; [apply emits_checkpoint|].
  intros _ w. exists [e]. split; [reflexivity | repeat constructor; exact He].
Qed.

Lemma emits_observe {A} (f : World -> A) : emits (observe f).
Proof.
  unfold observe. apply emits_bind; [apply emits_checkpoint|].
  intros _ w. exists []. rewrite app_nil_r. split; [reflexivity | constructor].
Qed.

Lemma emits_sleep (q : Q) : allowed (Sleep q) -> emits (sleep q).
Proof.
  intros He. unfold sleep. apply emits_bind; [apply emits_perform, He|].
  intros _ w. exists []. rewrite app_nil_r. split; [reflexivity | constructor].
Qed.

Lemma emits_lift {A} (m : W A) :
  emits m -> emits_only (snd : AFKWatcher * World -> World) allowed (lift m).
Proof.
  intros Hm [self w]. destruct (Hm w) as (new & E & F). exists new.
  split; [|exact F]. unfold lift. simpl in *. destruct (m w); exact E.
Qed.

Lemma emits_call {A} (obj : AFKWatcher) (m : Meth A) :
  emits_only (snd : AFKWatcher * World -> World) allowed m ->
  emits (call obj m).
Proof.
  intros Hm w. destruct (Hm (obj, w)) as (new & E & F). exists new.
  split; [|exact F]. unfold call. simpl in *. destruct (m (obj, w)); exact E.
Qed.

Lemma emits_get_self :
  emits_only (snd : AFKWatcher * World -> World) allowed get_self.
Proof. intros s. exists []. rewrite app_nil_r. split; [reflexivity | constructor]. Qed.

End EmitsWorld.

(** ** Constructing the watcher *)

Lemma get_logged_in_user_no_store_call (env : Env) :
  emits_only (fun w : World => w) (fun e => is_store_call e = false)
    (get_logged_in_user env).
Proof.
  assert (Hrun : forall cmd,
             emits_only (fun w : World => w) (fun e => is_store_call e = false)
               (check_output env cmd)).
  { intros cmd. unfold check_output. apply emits_bind.
    - apply emits_perform; reflexivity.
    - intros _. destruct (shell env cmd); [apply emits_ret | apply emits_raise]. }
  unfold get_logged_in_user.
  apply emits_bind.
  - apply emits_try_except; [|apply emits_ret].
    apply emits_bind; [apply Hrun|]. intros out.
    apply emits_if; [|apply emits_ret].
    apply emits_bind; [apply Hrun|]. intros out2.
    apply emits_if; apply emits_ret.
  - intros [user|]; [apply emits_ret|].
    apply emits_bind.
    + apply emits_try_except; [|apply emits_ret].
      apply emits_bind; [apply Hrun|]. intros out. apply emits_ret.
    + intros [user|]; [apply emits_ret|].
      apply emits_try_except.
      * unfold getpass_getuser. apply emits_bind.
        -- apply emits_checkpoint. reflexivity.
        -- intros _. destruct (getuser env); [apply emits_ret | apply emits_raise].
      * apply emits_bind; [|intros _; apply emits_ret].
        apply emits_perform; reflexivity.
Qed.

Lemma AFKWatcher_init_no_store_call (env : Env) (args : Args) (testing : bool) :
  emits_only (fun w : World => w) (fun e => is_store_call e = false)
    (AFKWatcher_init env args testing).
Proof.
  unfold AFKWatcher_init, load_config, ActivityWatchClient.
  apply emits_bind; [apply emits_ret|]. intros cfg.
  apply emits_bind.
  - intros w. exists []. rewrite app_nil_r, Settings_init_state.
    split; [reflexivity | constructor].
  - intros st. apply emits_bind; [apply get_logged_in_user_no_store_call|].
    intros user. apply emits_bind; intros; apply emits_ret.
Qed.

(** X10.  Settings are resolved before anything else: when their
    resolution fails, construction fails with the same error and has run no
    command and made no call. *)
Theorem AFKWatcher_init_settings_first (env : Env) (args : Args)
    (testing : bool) (w : World) (e : exn) :
  Settings_init (config env testing) (arg_timeout args) (arg_poll_time args) w
    = (Raise e, w) ->
  AFKWatcher_init env args testing w = (Raise e, w).
Proof.
  intros H. unfold AFKWatcher_init, load_config, bind, ret. rewrite H.
  reflexivity.
Qed.

Lemma AFKWatcher_init_settings_first_witness :
  AFKWatcher_init misconfigured no_args false (at_tick 0)
  = (Raise AssertionError, at_tick 0).
Proof.
  apply (AFKWatcher_init_settings_first misconfigured no_args false (at_tick 0)).
  reflexivity.
Defined.

(** X11.  A watcher that construction returns is well formed: its settings
    are the resolved timeout and poll time with the poll time at most the
    timeout, its client is the one named aw-watcher-afk for the host, port
    and testing flag given, and its bucket name is made of the user
    [get_logged_in_user] returned and the client's host name. *)
Theorem AFKWatcher_init_well_formed (env : Env) (args : Args)
    (testing : bool) (w w1 : World) (watcher : AFKWatcher) :
  AFKWatcher_init env args testing w = (Ret watcher, w1) ->
  exists t p user,
    or_getitem (arg_timeout args) (config env testing) "timeout" = Ret t
    /\ or_getitem (arg_poll_time args) (config env testing) "poll_time" = Ret p
    /\ (p <= t)%Q
    /\ get_logged_in_user env w = (Ret user, w1)
    /\ watcher
       = mkAFKWatcher (mkSettings t p)
           (mkClient "aw-watcher-afk" (arg_host args) (arg_port args) testing
              (hostname env))
           (user +:+ "-afk_" +:+ hostname env).
Proof.
  unfold AFKWatcher_init, load_config, ActivityWatchClient. intros H.
  apply bind_inv in H as (cfg & s1 & E1 & H).
  injection E1 as Hcfg Hs1. subst cfg s1.
  apply bind_inv in H as (st & s2 & E2 & H).
  unfold Settings_init, bind, of_result in E2.
  destruct (or_getitem (arg_timeout args) (config env testing) "timeout")
    as [t| |]; try discriminate E2.
  destruct (or_getitem (arg_poll_time args) (config env testing) "poll_time")
    as [p| |]; try discriminate E2.
  destruct (Qgeb t p) eqn:Hge; try discriminate E2.
  injection E2 as Hst Hs2. subst st s2.
  apply bind_inv in H as (user & s3 & E3 & H).
  apply bind_inv in H as (cl & s4 & E4 & H).
  injection E4 as Hcl Hs4. subst cl s4.
  injection H as Hwatcher Hw1. subst watcher w1.
  exists t, p, user. repeat split; try reflexivity; try assumption.
  apply Qgeb_le. exact Hge.
Qed.

Lemma AFKWatcher_init_well_formed_witness :
  exists t p user,
    or_getitem None (config desktop false) "timeout" = Ret t
    /\ or_getitem None (config desktop false) "poll_time" = Ret p
    /\ (p <= t)%Q
    /\ get_logged_in_user desktop (at_tick 0)
       = (Ret user, mkWorld 0 None [Run ListSeat0; Run (ShowSessionName "2")])
    /\ alice_watcher
       = mkAFKWatcher (mkSettings t p)
           (mkClient "aw-watcher-afk" None None false "box")
           (user +:+ "-afk_" +:+ "box").
Proof.
  apply (AFKWatcher_init_well_formed desktop no_args false (at_tick 0)
           (mkWorld 0 None [Run ListSeat0; Run (ShowSessionName "2")])
           alice_watcher).
  reflexivity.
Defined.

(** ** What the loop sends *)

Lemma emits_ping afk ts dur :
  afk = true \/ dur = 0%Q ->
  emits_only (snd : AFKWatcher * World -> World) loop_effect (ping afk ts dur).
Proof.
  intros H. unfold ping, client_heartbeat.
  apply emits_bind; [apply emits_get_self|]. intros self.
  apply emits_lift, emits_perform; [constructor|].
  destruct afk.
  - apply loop_afk.
  - destruct H as [H|H]; [discriminate H|]. subst dur. apply loop_not_afk.
Qed.

Ltac loop_emits :=
  repeat first
    [ apply emits_ret
    | apply emits_get_self
    | apply emits_ping; first [left; reflexivity | right; reflexivity]
    | apply emits_lift;
      first [ apply emits_sleep | apply emits_observe | apply emits_perform ];
      constructor
    | apply emits_if
    | apply emits_bind; [|intros ?] ].

Lemma tick_loop_effects env afk :
  emits_only (snd : AFKWatcher * World -> World) loop_effect (tick env afk).
Proof.
  unfold tick, logger_info, logger_debug_seconds, os_getppid, datetime_now,
    seconds_since_last_input.
  destruct afk; cbv beta iota zeta; loop_emits.
Qed.

Lemma loop_body_loop_effects env afk :
  emits_only (snd : AFKWatcher * World -> World) loop_effect
    (loop_body env afk).
Proof.
  unfold loop_body, logger_info. apply emits_try_except.
  - apply tick_loop_effects.
  - loop_emits.
Qed.

Lemma heartbeat_loop_from_loop_effects env fuel :
  forall afk,
    emits_only (snd : AFKWatcher * World -> World) loop_effect
      (heartbeat_loop_from env fuel afk).
Proof.
  induction fuel as [|fuel IH]; intros afk; simpl.
  - apply emits_of_result.
  - apply emits_bind; [apply loop_body_loop_effects|].
    intros [|afk']; [apply emits_ret | apply IH].
Qed.

(** X12.  Whatever happens, the loop only logs, sleeps, is interrupted and
    sends heartbeats (it never waits for the store, creates a bucket, opens
    or closes the connection), and each heartbeat it sends is queued and
    carries as data the one key [status], with value afk, or with value
    not-afk and then a duration of 0. *)
Theorem heartbeat_loop_effects (env : Env) (fuel : nat) (afk : bool)
    (self : AFKWatcher) (w : World) :
  Forall loop_effect
    (since w (snd (snd (heartbeat_loop_from env fuel afk (self, w))))).
Proof.
  destruct (heartbeat_loop_from_loop_effects env fuel afk (self, w))
    as (new & E & F).
  simpl in E. rewrite (since_app _ _ _ E). exact F.
Qed.

(** ** The loop left alone, and the loop interrupted *)

Lemma sleeps_app l1 l2 : sleeps (l1 ++ l2) = (sleeps l1 + sleeps l2)%nat.
Proof. unfold sleeps. rewrite List.filter_app, length_app. reflexivity. Qed.

Lemma beats_app l1 l2 : beats (l1 ++ l2) = beats l1 ++ beats l2.
Proof. unfold beats. apply flat_map_app. Qed.

Lemma tick_runs_on env self afk t tr :
  ~ parent_died env (mkWorld t None tr) ->
  exists afk' new,
    tick env afk (self, mkWorld t None tr)
    = (Ret (Continue afk'), (self, mkWorld (S t) None (tr ++ new)))
    /\ sleeps new = 1%nat
    /\ (1 <= length (beats new) <= 2)%nat.
Proof.
  intros Hp. apply alive_check in Hp. cbv [tick_no] in Hp.
  pose proof (Qgeb_negb_Qltb (idle (samples env t)) (timeout (settings self)))
    as Hge.
  destruct (Qltb (idle (samples env t)) (timeout (settings self))) eqn:Hlt;
    cbv [negb] in Hge;
    destruct afk; destruct (posix (system env)) eqn:Hsys;
    eexists _, _;
    (split;
     [ unfold tick; step; rewrite Hsys; step; try rewrite Hp; cbv beta iota;
       repeat step; rewrite ?Hlt, ?Hge; cbv beta iota delta [andb negb];
       rewrite ?Hlt, ?Hge; cbv beta iota delta [andb negb];
       repeat step; unfold ret; rewrite <- !app_assoc; reflexivity
     | split; [reflexivity | cbv [beats flat_map app length]; lia] ]).
Qed.

(** X13.  The loop has no end of its own: with the parent alive at every
    tick and no interrupt pending it is still running after any number of
    ticks, and by then it has slept once in each tick and sent one or two
    heartbeats in each. *)
Theorem heartbeat_loop_runs_on (env : Env) (self : AFKWatcher) (fuel : nat)
    (afk : bool) (w : World) :
  (forall n, ~ (posix (system env) = true /\ ppid (samples env n) = 1%Z)) ->
  sigint w = None ->
  exists w' new,
    heartbeat_loop_from env fuel afk (self, w) = (Fuel, (self, w'))
    /\ tick_no w' = (tick_no w + fuel)%nat
    /\ trace w' = trace w ++ new
    /\ sleeps new = fuel
    /\ (fuel <= length (beats new) <= 2 * fuel)%nat.
Proof.
  intros Halive. revert afk w.
  induction fuel as [|fuel IH]; intros afk [t sg tr] Hq; simpl in Hq; subst sg.
  - exists (mkWorld t None tr), []. simpl. rewrite app_nil_r, Nat.add_0_r.
    repeat split; lia.
  - destruct (tick_runs_on env self afk t tr (Halive t))
      as (afk' & new1 & Ht & Hs1 & Hb1).
    destruct (IH afk' (mkWorld (S t) None (tr ++ new1)) eq_refl)
      as (w' & new2 & El & Hn & Etr & Hs2 & Hb2).
    exists w', (new1 ++ new2).
    rewrite (loop_continue _ _ _ _ _ _ Ht), El.
    cbv [tick_no trace] in *.
    rewrite sleeps_app, beats_app, length_app, Etr, app_assoc.
    repeat split; lia.
Qed.

Lemma heartbeat_loop_runs_on_witness :
  exists w' new,
    heartbeat_loop_from desktop 5 false (alice_watcher, at_tick 0)
    = (Fuel, (alice_watcher, w'))
    /\ tick_no w' = 5%nat
    /\ trace w' = new
    /\ sleeps new = 5%nat
    /\ (5 <= length (beats new) <= 10)%nat.
Proof.
  destruct (heartbeat_loop_runs_on desktop alice_watcher 5 false (at_tick 0))
    as (w' & new & H).
  - intros n [_ H]. discriminate H.
  - reflexivity.
  - exists w', new. exact H.
Defined.

Lemma counts_down_ret {A} (a : A) : counts_down false (ret a).
Proof.
  intros s a0 s' n H Hn. injection H as _ <-. exists n. split; [exact Hn | lia].
Qed.

Lemma counts_down_get_self : counts_down false get_self.
Proof.
  intros s a0 s' n H Hn. injection H as _ <-. exists n. split; [exact Hn | lia].
Qed.

Lemma counts_down_weaken {A} (m : Meth A) :
  counts_down true m -> counts_down false m.
Proof.
  intros Hm s a s' n H Hn. destruct (Hm s a s' n H Hn) as (n' & E & Hlt).
  exists n'. split; [exact E | lia].
Qed.

Lemma counts_down_bind {A B} (b1 b2 : bool) (m : Meth A) (k : A -> Meth B) :
  counts_down b1 m -> (forall a, counts_down b2 (k a)) ->
  counts_down (b1 || b2) (bind m k).
Proof.
  intros Hm Hk s b s' n H Hn. apply bind_inv in H as (a & s1 & E1 & E2).
  destruct (Hm s a s1 n E1 Hn) as (n1 & Hn1 & H1).
  destruct (Hk a s1 b s' n1 E2 Hn1) as (n2 & Hn2 & H2).
  exists n2. split; [exact Hn2|]. destruct b1, b2; simpl; lia.
Qed.

Lemma counts_down_if {A} (strict b : bool) (m1 m2 : Meth A) :
  counts_down strict m1 -> counts_down strict m2 ->
  counts_down strict (if b then m1 else m2).
Proof. destruct b; auto. Qed.

Lemma counts_down_checkpoint {A} (m : W A) :
  (forall w a w', m w = (Ret a, w') -> sigint w' = sigint w) ->
  counts_down true (lift (checkpoint ;; m)).
Proof.
  intros Hm [self w] a s' n H Hn. simpl in Hn.
  apply lift_inv in H as (w' & -> & H).
  apply bind_inv in H as (u & w1 & E1 & E2).
  unfold checkpoint in E1. rewrite Hn in E1.
  destruct n as [|n]; [discriminate E1|]. injection E1 as _ <-.
  apply Hm in E2. simpl in *. exists n. split; [exact E2 | lia].
Qed.

Lemma counts_down_observe {A} (f : World -> A) :
  counts_down true (lift (observe f)).
Proof.
  apply counts_down_checkpoint. intros w a w' H. injection H as _ <-.
  reflexivity.
Qed.

Lemma counts_down_perform (e : effect) : counts_down true (lift (perform e)).
Proof.
  apply counts_down_checkpoint. intros w a w' H. injection H as _ <-.
  reflexivity.
Qed.

Lemma counts_down_sleep (q : Q) : counts_down true (lift (sleep q)).
Proof.
  intros [self w] a s' n H Hn. simpl in Hn.
  apply lift_inv in H as (w' & -> & H).
  apply bind_inv in H as (u & w1 & E1 & E2).
  destruct (counts_down_perform (Sleep q) (self, w) u (self, w1) n)
    as (n' & Hn' & Hlt); [|exact Hn|].
  - unfold lift. simpl. rewrite E1. reflexivity.
  - injection E2 as _ <-. exists n'. simpl in *. auto.
Qed.

Lemma counts_down_ping afk ts dur : counts_down true (ping afk ts dur).
Proof.
  unfold ping, client_heartbeat.
  apply (counts_down_bind false true); [apply counts_down_get_self|].
  intros self. apply counts_down_perform.
Qed.

(** Every operation of a tick moves the pending interrupt nearer. *)
Ltac operation_counts :=
  first [ apply counts_down_observe | apply counts_down_perform
        | apply counts_down_sleep | apply counts_down_ping ].

Ltac rest_counts :=
  repeat first
    [ apply counts_down_ret
    | apply counts_down_weaken; operation_counts
    | apply counts_down_if
    | apply (counts_down_bind false false); [|intros ?] ].

Lemma tick_counts_down env afk : counts_down true (tick env afk).
Proof.
  unfold tick, logger_info, logger_debug_seconds, os_getppid, datetime_now,
    seconds_since_last_input.
  apply (counts_down_bind false true); [apply counts_down_get_self|].
  intros self. destruct (posix (system env)).
  - apply (counts_down_bind true false).
    + apply (counts_down_bind true false);
        [operation_counts | intros ?; apply counts_down_ret].
    + intros ?. rest_counts.
  - apply (counts_down_bind false true); [apply counts_down_ret|].
    intros [|]; apply (counts_down_bind true false);
      try operation_counts; intros ?; rest_counts.
Qed.

(** X14.  A pending keyboard interrupt always ends the loop: with [k]
    operations to go before it is delivered, the loop returns, raising
    nothing, within [k + 1] ticks. *)
Theorem heartbeat_loop_stops_on_interrupt (env : Env) (self : AFKWatcher)
    (fuel : nat) (afk : bool) (w : World) (k : nat) :
  sigint w = Some k -> (k < fuel)%nat ->
  exists w', heartbeat_loop_from env fuel afk (self, w) = (Ret tt, (self, w')).
Proof.
  revert afk w k. induction fuel as [|fuel IH]; intros afk w k Hk Hlt; [lia|].
  destruct (tick_interrupt_last env self afk w) as (r & w1 & new & E & _ & HP).
  destruct r as [[|afk']|e|]; simpl in HP.
  - exists w1. apply loop_break. unfold loop_body, try_except. rewrite E.
    reflexivity.
  - destruct (tick_counts_down env afk (self, w) _ _ k E Hk) as (k' & Hk' & Hlt').
    destruct (IH afk' w1 k' Hk') as (w' & El); [lia|].
    exists w'. rewrite (loop_continue _ _ _ _ _ _ E). exact El.
  - destruct e; try contradiction. destruct HP as (Hsg & _).
    eexists. apply loop_break. unfold loop_body, try_except. rewrite E. simpl.
    apply (handler_after_interrupt self w1 Hsg).
  - contradiction.
Qed.

Lemma heartbeat_loop_stops_on_interrupt_witness :
  exists w',
    heartbeat_loop_from desktop 15 false
      (alice_watcher, mkWorld 0 (Some 14%nat) [])
    = (Ret tt, (alice_watcher, w')).
Proof.
  apply (heartbeat_loop_stops_on_interrupt desktop alice_watcher 15 false
           (mkWorld 0 (Some 14%nat) []) 14); [reflexivity | lia].
Defined.



(** ** [run]: the order of the calls to the store *)

Lemma with_block_entered {St A} (enter leave : M St unit) (body : M St A)
    s u s1 :
  enter s = (Ret u, s1) ->
  with_block enter body leave s = with_block (ret tt) body leave s1.
Proof. intros H. unfold with_block, bind, ret. rewrite H. reflexivity. Qed.

Lemma loop_in_connection env fuel (self : AFKWatcher) :
  emits_only (snd : AFKWatcher * World -> World)
    (fun e => loop_effect e \/ e = Disconnect)
    (with_block (ret tt) (heartbeat_loop env fuel)
       (lift (client_exit (client self)))).
Proof.
  apply emits_with_block.
  - apply emits_ret.
  - apply (emits_weaken _ _ loop_effect); [intros e He; left; exact He|].
    apply heartbeat_loop_from_loop_effects.
  - apply emits_lift, emits_perform; [left; constructor | right; reflexivity].
Qed.

(** X15.  With no interrupt during its first four operations, [run] first
    logs that it started, waits for the store, creates its bucket with event
    type afkstatus, queued, and opens the connection; everything after that
    is the loop's, or the closing of the connection: the bucket is created
    once, and before any heartbeat. *)
Theorem run_startup_first (env : Env) (fuel : nat) (self : AFKWatcher)
    (w : World) :
  quiet 4 w ->
  exists rest,
    since w (snd (snd (run env fuel (self, w)))) = startup self ++ rest
    /\ Forall (fun e => loop_effect e \/ e = Disconnect) rest.
Proof.
  intros Hq. destruct w as [t sg tr]. unfold quiet in Hq. simpl in Hq.
  assert (Hrun : exists w4,
             run env fuel (self, mkWorld t sg tr)
             = with_block (ret tt) (heartbeat_loop env fuel)
                 (lift (client_exit (client self))) (self, w4)
             /\ trace w4 = tr ++ startup self).
  { destruct sg as [sg|];
      [do 4 (destruct sg as [|sg]; [exfalso; lia|])|];
      eexists; (split;
        [ unfold run; do 4 step;
          erewrite with_block_entered by reflexivity; reflexivity
        | cbv beta iota zeta delta [fst snd tick_no sigint trace startup];
          rewrite <- !app_assoc; reflexivity ]). }
  destruct Hrun as (w4 & Hrun & Htr). rewrite Hrun.
  destruct (loop_in_connection env fuel self (self, w4)) as (rest & E & F).
  exists rest. split; [|exact F]. apply since_app.
  change (trace (snd (self, w4))) with (trace w4) in E.
  rewrite E, Htr, <- app_assoc. reflexivity.
Qed.

Lemma run_startup_first_witness :
  exists rest,
    since (at_tick 0) (snd (snd (run desktop 2 (alice_watcher, at_tick 0))))
    = startup alice_watcher ++ rest
    /\ Forall (fun e => loop_effect e \/ e = Disconnect) rest.
Proof. apply (run_startup_first desktop 2 alice_watcher (at_tick 0)). exact I. Defined.

(** X16.  An interrupt during the first four operations of [run] is not
    caught: [run] raises KeyboardInterrupt to its caller, having sent no
    heartbeat and without closing a connection. *)
Theorem run_interrupted_at_startup (env : Env) (fuel : nat)
    (self : AFKWatcher) (w : World) (k : nat) :
  sigint w = Some k -> (k < 4)%nat ->
  exists w',
    run env fuel (self, w) = (Raise KeyboardInterrupt, (self, w'))
    /\ beats (since w w') = []
    /\ ~ In Disconnect (since w w').
Proof.
  intros Hk Hlt. destruct w as [t sg tr]. simpl in Hk. subst sg.
  destruct k as [|[|[|[|k]]]]; [| | | |exfalso; lia]; eexists;
    (split;
     [ unfold run, with_block; cut_short
     | erewrite since_app
         by (cbv beta iota zeta delta [fst snd tick_no sigint trace];
             rewrite <- ?app_assoc; reflexivity);
       split; [reflexivity | simpl; intuition discriminate] ]).
Qed.

Lemma run_interrupted_at_startup_witness :
  exists w',
    run desktop 3 (alice_watcher, mkWorld 0 (Some 1%nat) [])
    = (Raise KeyboardInterrupt, (alice_watcher, w'))
    /\ beats (since (mkWorld 0 (Some 1%nat) []) w') = []
    /\ ~ In Disconnect (since (mkWorld 0 (Some 1%nat) []) w').
Proof.
  apply (run_interrupted_at_startup desktop 3 alice_watcher
           (mkWorld 0 (Some 1%nat) []) 1); [reflexivity | lia].
Defined.

Lemma perform_trace e w u w' :
  perform e w = (Ret u, w') -> trace w' = trace w ++ [e].
Proof.
  unfold perform. intros H. apply bind_inv in H as (u1 & w1 & E & H).
  unfold checkpoint in E. unfold emit in H. injection H as _ <-. simpl.
  destruct (sigint w) as [[|n]|]; inversion E; reflexivity.
Qed.

(** X17.  [run] returns only with the connection closed: when it returns,
    the last thing it did was to leave the connection. *)
Theorem run_returns_disconnected (env : Env) (fuel : nat) (self : AFKWatcher)
    (w : World) (s' : AFKWatcher * World) :
  run env fuel (self, w) = (Ret tt, s') ->
  exists before, trace (snd s') = before ++ [Disconnect].
Proof.
  unfold run. intros H.
  apply bind_inv in H as (me & s0 & _ & H).
  do 3 (apply bind_inv in H as (? & ? & _ & H)).
  unfold with_block in H. apply bind_inv in H as (? & s4 & _ & H).
  assert (Hleave : exists s5 u,
             lift (client_exit (client me)) s5 = (Ret u, s')).
  { destruct (heartbeat_loop env fuel s4) as [[[]|e|] s5]; try discriminate H;
      destruct (lift (client_exit (client me)) s5) as [[[]|e'|] s6] eqn:El;
      try discriminate H; injection H as <-; eauto. }
  destruct Hleave as ([self5 w5] & u & Hl).
  apply lift_inv in Hl as (w6 & -> & Hl). apply perform_trace in Hl.
  exists (trace w5). exact Hl.
Qed.

Lemma run_returns_disconnected_witness :
  exists before,
    trace (snd (snd (run orphaned 1 (alice_watcher, at_tick 0))))
    = before ++ [Disconnect].
Proof.
  apply (run_returns_disconnected orphaned 1 alice_watcher (at_tick 0)).
  reflexivity.
Defined.

(** ** The whole program *)

(** X18.  Off SSH and with no interrupt pending, a configuration whose
    resolved timeout is below the resolved poll time ends the program with
    the assertion's error right after logging is set up: no command has
    been run and no call has reached the store. *)
Theorem main_invalid_configuration (env : Env) (fuel : nat) (w : World)
    (t p : Q) :
  running_over_ssh env = false ->
  sigint w = None ->
  or_getitem (arg_timeout (argv env)) (config env (arg_testing (argv env)))
    "timeout" = Ret t ->
  or_getitem (arg_poll_time (argv env)) (config env (arg_testing (argv env)))
    "poll_time" = Ret p ->
  (t < p)%Q ->
  main env fuel w
  = (Raise AssertionError,
     mkWorld (tick_no w) None
       (trace w ++
        [SetupLogging "aw-watcher-afk" (arg_testing (argv env))
           (arg_verbose (argv env)) true true])).
Proof.
  intros Hssh Hq Ht Hp Hlt. destruct w as [tn sg tr]. simpl in Hq. subst sg.
  unfold main, parse_args. rewrite Hssh. step. step.
  apply bind_raise. apply AFKWatcher_init_settings_first.
  rewrite (Settings_init_resolved _ _ _ _ t p Ht Hp).
  apply Qltb_lt in Hlt. rewrite Qgeb_negb_Qltb, Hlt. reflexivity.
Qed.

Lemma main_invalid_configuration_witness :
  main misconfigured 3 (at_tick 0)
  = (Raise AssertionError,
     mkWorld 0 None [SetupLogging "aw-watcher-afk" false false true true]).
Proof.
  apply (main_invalid_configuration misconfigured 3 (at_tick 0) 3 5);
    reflexivity.
Defined.

Lemma since_self (w : World) : since w w = [].
Proof. unfold since. apply drop_all. Qed.

(** X19.  Every heartbeat the program sends, on any machine and however
    the run ends, names the bucket made of the user [get_logged_in_user]
    returned and the host name, is queued, and carries as pulsetime the sum
    of the resolved timeout and poll time, the poll time being at most the
    timeout; and none is sent over SSH. *)
Theorem main_heartbeats (env : Env) (fuel : nat) (w : World)
    (bucket_id : string) (e : Event) (pulsetime : Q) (queued : bool) :
  In (Heartbeat bucket_id e pulsetime queued)
     (since w (snd (main env fuel w))) ->
  exists t p user w0 w1,
    running_over_ssh env = false
    /\ or_getitem (arg_timeout (argv env))
         (config env (arg_testing (argv env))) "timeout" = Ret t
    /\ or_getitem (arg_poll_time (argv env))
         (config env (arg_testing (argv env))) "poll_time" = Ret p
    /\ (p <= t)%Q
    /\ get_logged_in_user env w0 = (Ret user, w1)
    /\ bucket_id = user +:+ "-afk_" +:+ hostname env
    /\ pulsetime = (t + p)%Q
    /\ queued = true.
Proof.
  unfold main, parse_args.
  rewrite (bind_step _ _ w (argv env) w eq_refl).
  destruct (running_over_ssh env).
  { simpl. rewrite since_self. intros []. }
  assert (Hno : forall l, Forall (fun x => is_store_call x = false) l ->
                          ~ In (Heartbeat bucket_id e pulsetime queued) l).
  { intros l Hl Hin. rewrite List.Forall_forall in Hl.
    specialize (Hl _ Hin). discriminate Hl. }
  destruct (emits_perform (fun x => is_store_call x = false) eq_refl
              (SetupLogging "aw-watcher-afk" (arg_testing (argv env))
                 (arg_verbose (argv env)) true true) eq_refl w)
    as (n1 & E1 & F1).
  fold (setup_logging "aw-watcher-afk" (arg_testing (argv env))
          (arg_verbose (argv env)) true true) in E1.
  unfold bind at 1.
  destruct (setup_logging "aw-watcher-afk" (arg_testing (argv env))
              (arg_verbose (argv env)) true true w) as [[u| |] w1];
    simpl in E1;
    try (cbn [snd]; rewrite (since_app _ _ _ E1); intros Hin; exfalso;
         exact (Hno _ F1 Hin)).
  destruct (AFKWatcher_init_no_store_call env (argv env)
              (arg_testing (argv env)) w1) as (n2 & E2 & F2).
  unfold bind at 1.
  destruct (AFKWatcher_init env (argv env) (arg_testing (argv env)) w1)
    as [[watcher| |] w2] eqn:Einit; simpl in E2;
    try (cbn [snd]; rewrite E1, <- app_assoc in E2;
         rewrite (since_app _ _ _ E2);
         intros Hin; apply in_app_or in Hin; exfalso;
         destruct Hin as [Hin|Hin];
         [exact (Hno _ F1 Hin) | exact (Hno _ F2 Hin)]).
  destruct (obeys_run env watcher fuel w2) as (r & w3 & n3 & Er & E3 & F3).
  unfold call. rewrite Er. simpl.
  rewrite E2, E1, <- !app_assoc in E3. rewrite (since_app _ _ _ E3).
  intros Hin. apply in_app_or in Hin. destruct Hin as [Hin|Hin];
    [exfalso; exact (Hno _ F1 Hin)|].
  apply in_app_or in Hin. destruct Hin as [Hin|Hin];
    [exfalso; exact (Hno _ F2 Hin)|].
  unfold only_expected in F3. rewrite List.Forall_forall in F3.
  destruct (F3 _ Hin) as [Hs|He]; [discriminate Hs|].
  destruct (AFKWatcher_init_well_formed _ _ _ _ _ _ Einit)
    as (t & p & user & Ht & Hp & Hle & Hu & Hw).
  exists t, p, user, w1, w2. subst watcher. inversion He; subst.
  repeat split; try assumption; reflexivity.
Qed.

Lemma main_heartbeats_witness :
  exists t p user w0 w1,
    running_over_ssh desktop = false
    /\ or_getitem None (config desktop false) "timeout" = Ret t
    /\ or_getitem None (config desktop false) "poll_time" = Ret p
    /\ (p <= t)%Q
    /\ get_logged_in_user desktop w0 = (Ret user, w1)
    /\ "alice-afk_box" = user +:+ "-afk_" +:+ "box"
    /\ 15%Q = (t + p)%Q
    /\ true = true.
Proof.
  apply (main_heartbeats desktop 1 (at_tick 0) "alice-afk_box"
           (status_event "not-afk" 995000000 0) 15 true).
  vm_compute. right. right. right. right. right. right. right. right.
  left. reflexivity.
Defined.
